(** * settings_persist: debounced, CRC-protected persistence of a settings record

    A shallow embedding of [src/settings_persist.c].

    - Machine integers are [Z] with the wrap-around of their C type written
      out ([u8], [u16], [u32]).
    - A byte buffer is a [list byte].
    - The [Settings] structure is declared in a header that is not part of
      the sources at hand; it is represented by its memory image, split at
      the one field the code names ([Verify.crc_16_ibm]).
    - The file system, the external serializer and the INI parser are
      explicit: a file system maps the four paths to their content, and
      every outcome the environment decides (a write or a rename that
      fails, a thread that cannot be created) is an argument of the function
      that meets it.
    - Each routine is modelled as run by one thread from start to end; what
      it does to the two locks is recorded in a trace. *)

From Stdlib Require Import ZArith List Bool Lia.
From Stdlib Require Import Strings.Byte.
Import ListNotations.
Open Scope Z_scope.

(** ** Fixed-width arithmetic *)

Definition u8 (z : Z) : Z := z mod 256.
Definition u16 (z : Z) : Z := z mod 65536.
Definition u32 (z : Z) : Z := z mod 4294967296.

(** The values of a [uint16_t]. *)
Definition in16 (x : Z) : Prop := 0 <= x < 65536.

Definition byte_val (b : byte) : Z := Z.of_N (Byte.to_N b).

Definition byte_of_Z (z : Z) : byte :=
  match Byte.of_N (Z.to_N (u8 z)) with
  | Some b => b
  | None => x00
  end.

(** [p] holds of every [x] with [acc * 2^n <= x < (acc + 1) * 2^n]: the
    numbers that extend the bits of [acc] by [n] more bits. *)
Fixpoint all_below (n : nat) (acc : Z) (p : Z -> bool) : bool :=
  match n with
  | O => p acc
  | S k => all_below k (2 * acc) p && all_below k (2 * acc + 1) p
  end.

(** ** Checksum unit: [calculate_crc_16_ibm] *)

Module Crc.

(** The three mask-and-swap statements that reverse the bits of [byte]. *)
Definition reverse_byte (byte : Z) : Z :=
  let byte := u8 (Z.lor (Z.shiftr (Z.land byte 0xF0) 4)
                        (Z.shiftl (Z.land byte 0x0F) 4)) in
  let byte := u8 (Z.lor (Z.shiftr (Z.land byte 0xCC) 2)
                        (Z.shiftl (Z.land byte 0x33) 2)) in
  u8 (Z.lor (Z.shiftr (Z.land byte 0xAA) 1)
            (Z.shiftl (Z.land byte 0x55) 1)).

(** Body of the inner loop: one shift of the register. *)
Definition shift_step (crc : Z) : Z :=
  if Z.eqb (Z.land crc 0x8000) 0
  then u16 (Z.shiftl crc 1)
  else u16 (Z.lxor (Z.shiftl crc 1) 0x8005).

(** The inner loop, [j] iterations. *)
Fixpoint shift_loop (j : nat) (crc : Z) : Z :=
  match j with
  | O => crc
  | S j' => shift_loop j' (shift_step crc)
  end.

(** Body of the outer loop: one input byte. *)
Definition byte_step (crc : Z) (b : byte) : Z :=
  let byte := reverse_byte (byte_val b) in
  let crc := u16 (Z.lxor crc (Z.shiftl (u16 byte) 8)) in
  shift_loop 8 crc.

(** The closing loop that reverses the register, [i] iterations. *)
Fixpoint reverse_loop (i : nat) (result crc : Z) : Z :=
  match i with
  | O => result
  | S i' =>
      let result := u16 (Z.shiftl result 1) in
      let result := Z.lor result (Z.land crc 1) in
      let crc := Z.shiftr crc 1 in
      reverse_loop i' result crc
  end.

Definition calculate_crc_16_ibm (data : list byte) : Z :=
  let crc := fold_left byte_step data 0x0000 in
  reverse_loop 16 0 crc.

(** *** The algorithm in the words of the specification *)

(** The [n]-bit value whose bit [n-1-i] is bit [i] of [x]. *)
Definition reflect (n : nat) (x : Z) : Z :=
  fold_right
    (fun i acc =>
       (if Z.testbit x (Z.of_nat i) then 2 ^ Z.of_nat (n - 1 - i) else 0) + acc)
    0 (seq 0 n).

(** Shift left by one inside sixteen bits; when the bit that left position
    15 was set, XOR with 0x8005. *)
Definition spec_shift (reg : Z) : Z :=
  let out := Z.testbit reg 15 in
  let reg := (2 * reg) mod 2 ^ 16 in
  if out then Z.lxor reg 0x8005 else reg.

(** Reverse the byte, XOR it into the high byte, shift eight times. *)
Definition spec_byte (reg : Z) (b : byte) : Z :=
  Nat.iter 8 spec_shift (Z.lxor reg (reflect 8 (byte_val b) * 2 ^ 8)).

Definition checksum_spec (data : list byte) : Z :=
  reflect 16 (fold_left spec_byte data 0).

End Crc.

(** ** The settings record *)

(** Modelled from the spec: the [Settings] structure (declared in
    [settings_persist.h], which is missing) is "a fixed-size, pointer-free
    value type" with "one reserved field, the Integrity Code".  It is
    represented by its memory image: the bytes that precede the field
    [Verify.crc_16_ibm], the field itself (a [uint16_t]), and the bytes that
    follow it.  Padding, if any, is part of the two byte runs. *)
Record Settings : Type := mkSettings {
  bytes_before : list byte;
  Verify_crc_16_ibm : Z;
  bytes_after : list byte
}.

(** A [uint16_t] in memory, low byte first. *)
Definition u16_image (v : Z) : list byte :=
  [byte_of_Z v; byte_of_Z (Z.shiftr v 8)].

(** [(const uint8_t * )&s], read over [sizeof(Settings)] bytes. *)
Definition Settings_image (s : Settings) : list byte :=
  bytes_before s ++ u16_image (Verify_crc_16_ibm s) ++ bytes_after s.

(** The assignment [s.Verify.crc_16_ibm = v]. *)
Definition set_crc_16_ibm (s : Settings) (v : Z) : Settings :=
  {| bytes_before := bytes_before s;
     Verify_crc_16_ibm := u16 v;
     bytes_after := bytes_after s |}.

(** [memset(&s, 0, sizeof(Settings))]. *)
Definition memset_zero (s : Settings) : Settings :=
  {| bytes_before := map (fun _ => x00) (bytes_before s);
     Verify_crc_16_ibm := 0;
     bytes_after := map (fun _ => x00) (bytes_after s) |}.

Fixpoint bytes_eqb (a b : list byte) : bool :=
  match a, b with
  | [], [] => true
  | x :: a', y :: b' => Byte.eqb x y && bytes_eqb a' b'
  | _, _ => false
  end.

(** [memcmp(&a, &b, sizeof(Settings)) != 0]. *)
Definition memcmp_differs (a b : Settings) : bool :=
  negb (bytes_eqb (Settings_image a) (Settings_image b)).

(** A null pointer is [None]. *)
Definition calculate_settings_crc (settings : option Settings) : Z :=
  match settings with
  | None => 0
  | Some s =>
      let temp := s in
      let temp := set_crc_16_ibm temp 0 in
      Crc.calculate_crc_16_ibm (Settings_image temp)
  end.

(** ** Files *)

Inductive Path : Type :=
| MAIN_SETTINGS_PATH
| BACKUP_SETTINGS_PATH
| TEMP_SETTINGS_PATH
| TEMP_BACKUP_PATH.

Definition Path_eqb (p q : Path) : bool :=
  match p, q with
  | MAIN_SETTINGS_PATH, MAIN_SETTINGS_PATH
  | BACKUP_SETTINGS_PATH, BACKUP_SETTINGS_PATH
  | TEMP_SETTINGS_PATH, TEMP_SETTINGS_PATH
  | TEMP_BACKUP_PATH, TEMP_BACKUP_PATH => true
  | _, _ => false
  end.

(** What each path holds; [None] is a file that does not exist. *)
Definition FileSystem : Type := Path -> option (list byte).

Definition fs_put (fs : FileSystem) (p : Path) (d : option (list byte)) : FileSystem :=
  fun q => if Path_eqb q p then d else fs q.

(** The functions the module declares [extern] and the INI parser it calls
    are not in the sources at hand. *)
Class Collaborators : Type := {
  (** Modelled from the spec: "a defaults provider [defaults() -> Record]";
      [settings_restore_defaults] stores this value through its argument. *)
  defaults : Settings;
  (** Modelled from the spec: the serializer's [encode(Record) -> bytes],
      the text [write_settings_to_file] produces. *)
  encode : Settings -> list byte;
  (** [ini_parse_file(file, settings_ini_handler, settings)] on a file with
      the given content: the record after the handler calls that were made,
      and the value returned (0 when the whole file was parsed). *)
  ini_parse_file : list byte -> Settings -> Settings * Z
}.

(** Modelled from the spec: [settings_restore_defaults] (declared [extern],
    its body missing) makes the record behind its argument the value of the
    "defaults provider", whatever the record held. *)
Definition settings_restore_defaults `{Collaborators} (settings : Settings) : Settings :=
  defaults.

(** How a call of [write_settings_to_file] ends: the file is written, or the
    call fails and leaves [residue] at the path. *)
Inductive WriteOutcome : Type :=
| WriteOk
| WriteFailed (residue : option (list byte)).

(** Modelled from the spec: [write_settings_to_file] (missing) encodes the
    record and writes it to [filename]; it returns 0 exactly on success. *)
Definition write_settings_to_file `{Collaborators}
    (o : WriteOutcome) (filename : Path) (settings : Settings)
    (fs : FileSystem) : Z * FileSystem :=
  match o with
  | WriteOk => (0, fs_put fs filename (Some (encode settings)))
  | WriteFailed residue => (-1, fs_put fs filename residue)
  end.

(** [rename(old, new)]: fails when [old] does not exist or when the
    environment says so; on success [new] holds what [old] held. *)
Definition rename (ok : bool) (old new : Path) (fs : FileSystem) : Z * FileSystem :=
  match fs old with
  | Some d =>
      if ok then (0, fs_put (fs_put fs new (Some d)) old None) else (-1, fs)
  | None => (-1, fs)
  end.

(** The environment's part in one call of [save_settings_with_crc]. *)
Record SaveIO : Type := mkSaveIO {
  write_temp_settings : WriteOutcome;
  write_temp_backup : WriteOutcome;
  rename_backup_ok : bool;
  rename_main_ok : bool
}.

(** ** Persistence engine *)

(** Returns the result and the record behind [settings] after the call. *)
Definition load_from_file `{Collaborators}
    (filename : option Path) (settings : option Settings)
    (fs : FileSystem) : bool * option Settings :=
  match filename, settings with
  | Some f, Some s =>
      let s := settings_restore_defaults s in
      match fs f with
      | None => (false, Some s)
      | Some content =>
          let '(s, parse_result) := ini_parse_file content s in
          if negb (Z.eqb parse_result 0) then (false, Some s)
          else
            let calculated := calculate_settings_crc (Some s) in
            let result := Z.eqb calculated (Verify_crc_16_ibm s) in
            (result, Some s)
      end
  | _, _ => (false, settings)
  end.

(** Returns the result, the record behind [settings] after the call, and the
    file system after the call. *)
Definition save_settings_with_crc `{Collaborators}
    (io : SaveIO) (settings : option Settings)
    (fs : FileSystem) : bool * option Settings * FileSystem :=
  match settings with
  | None => (false, None, fs)
  | Some s =>
      let s := set_crc_16_ibm s (calculate_settings_crc (Some s)) in
      let '(r1, fs) := write_settings_to_file (write_temp_settings io) TEMP_SETTINGS_PATH s fs in
      if negb (Z.eqb r1 0) then (false, Some s, fs)
      else
        let '(r2, fs) := write_settings_to_file (write_temp_backup io) TEMP_BACKUP_PATH s fs in
        let fs :=
          if Z.eqb r2 0
          then snd (rename (rename_backup_ok io) TEMP_BACKUP_PATH BACKUP_SETTINGS_PATH fs)
          else fs in
        let '(r3, fs) := rename (rename_main_ok io) TEMP_SETTINGS_PATH MAIN_SETTINGS_PATH fs in
        if negb (Z.eqb r3 0) then (false, Some s, fs)
        else (true, Some s, fs)
  end.

(** ** Shared state, locks and the trace of a run *)

Inductive Mutex : Type :=
| settings_persist_thread_status_mutex
| cache_mutex.

(** What a routine does that the statements below speak of: taking and
    releasing a lock, and calling [save_settings_with_crc] (with the record
    passed and the value returned). *)
Inductive Event : Type :=
| EvLock (m : Mutex)
| EvUnlock (m : Mutex)
| EvSave (passed : Settings) (returned : bool).

(** The file-scope variables of the module, the files, and what has been
    done so far (oldest event first). *)
Record World : Type := mkWorld {
  settings_persist_thread_running : Z;
  settings_cache : Settings;
  cache_snapshot : Settings;
  files : FileSystem;
  trace : list Event
}.

Definition emit (e : Event) (w : World) : World :=
  {| settings_persist_thread_running := settings_persist_thread_running w;
     settings_cache := settings_cache w;
     cache_snapshot := cache_snapshot w;
     files := files w;
     trace := trace w ++ [e] |}.

(** Taking and releasing a lock as one routine sees it while no other thread
    holds that lock: the call returns at once and is recorded.  What a held
    lock does to a call is in the model of the threads further down, where
    every lock has an owner. *)
Definition pthread_mutex_lock (m : Mutex) : World -> World := emit (EvLock m).
Definition pthread_mutex_unlock (m : Mutex) : World -> World := emit (EvUnlock m).

Definition set_running (v : Z) (w : World) : World :=
  {| settings_persist_thread_running := v;
     settings_cache := settings_cache w;
     cache_snapshot := cache_snapshot w;
     files := files w;
     trace := trace w |}.

Definition set_cache (s : Settings) (w : World) : World :=
  {| settings_persist_thread_running := settings_persist_thread_running w;
     settings_cache := s;
     cache_snapshot := cache_snapshot w;
     files := files w;
     trace := trace w |}.

Definition set_snapshot (s : Settings) (w : World) : World :=
  {| settings_persist_thread_running := settings_persist_thread_running w;
     settings_cache := settings_cache w;
     cache_snapshot := s;
     files := files w;
     trace := trace w |}.

Definition set_files (fs : FileSystem) (w : World) : World :=
  {| settings_persist_thread_running := settings_persist_thread_running w;
     settings_cache := settings_cache w;
     cache_snapshot := cache_snapshot w;
     files := fs;
     trace := trace w |}.

(** [save_settings_with_crc(&settings_cache)]. *)
Definition save_cache `{Collaborators} (io : SaveIO) (w : World) : World :=
  let passed := settings_cache w in
  let '(returned, after, fs) := save_settings_with_crc io (Some passed) (files w) in
  let w := set_files fs w in
  let w := match after with Some s => set_cache s w | None => w end in
  emit (EvSave passed returned) w.

(** [load_from_file(path, &settings_cache)]. *)
Definition load_cache `{Collaborators} (path : Path) (w : World) : bool * World :=
  let '(result, after) := load_from_file (Some path) (Some (settings_cache w)) (files w) in
  (result, match after with Some s => set_cache s w | None => w end).

(** ** Background worker *)

Definition DELAY_WRITE_CYCLES : Z := 5.

(** The two locals of [work_thread_func]. *)
Record Worker : Type := mkWorker {
  cache_changed : bool;
  change_cycle_count : Z
}.

Definition worker_start : Worker :=
  {| cache_changed := false; change_cycle_count := 0 |}.

(** The part of the loop body between locking and unlocking [cache_mutex]. *)
Definition detect_and_flush `{Collaborators}
    (io : SaveIO) (w : World) (k : Worker) : World * Worker :=
  let current_changed := memcmp_differs (settings_cache w) (cache_snapshot w) in
  let '(w, k) :=
    if current_changed then
      (set_snapshot (settings_cache w) w,
       {| cache_changed := true; change_cycle_count := 0 |})
    else if cache_changed k then
      (w, {| cache_changed := cache_changed k;
             change_cycle_count := u32 (change_cycle_count k + 1) |})
    else (w, k) in
  if cache_changed k && (DELAY_WRITE_CYCLES <=? change_cycle_count k) then
    let w := save_cache io w in
    let w := set_snapshot (settings_cache w) w in
    (w, {| cache_changed := false; change_cycle_count := 0 |})
  else (w, k).

(** One turn of the [while (1)] loop: the state after it, and the locals
    for the next turn, or [None] at the [break]. *)
Definition work_thread_cycle `{Collaborators}
    (io : SaveIO) (w : World) (k : Worker) : World * option Worker :=
  let w := pthread_mutex_lock settings_persist_thread_status_mutex w in
  let running := settings_persist_thread_running w in
  let w := pthread_mutex_unlock settings_persist_thread_status_mutex w in
  if Z.eqb running 0 then (w, None)
  else
    let w := pthread_mutex_lock cache_mutex w in
    let '(w, k) := detect_and_flush io w k in
    let w := pthread_mutex_unlock cache_mutex w in
    (w, Some k).

(** The loop, for as many turns as there are entries in [ios] (one per
    turn, used if that turn saves); it stops early at the [break]. *)
Fixpoint work_thread_func `{Collaborators}
    (ios : list SaveIO) (w : World) (k : Worker) : World * Worker :=
  match ios with
  | [] => (w, k)
  | io :: ios' =>
      match work_thread_cycle io w k with
      | (w', None) => (w', k)
      | (w', Some k') => work_thread_func ios' w' k'
      end
  end.

(** ** Lifecycle and access *)

(** [thread_created] says whether [pthread_create] succeeds.  Returns the
    value returned, the state after the call, and the locals of the worker
    when one was started. *)
Definition settings_persist_init `{Collaborators}
    (io : SaveIO) (thread_created : bool) (w : World) : Z * World * option Worker :=
  let w := pthread_mutex_lock settings_persist_thread_status_mutex w in
  if Z.eqb (settings_persist_thread_running w) 1 then
    let w := pthread_mutex_unlock settings_persist_thread_status_mutex w in
    (1, w, None)
  else
    let w := pthread_mutex_lock cache_mutex w in
    let w := set_cache (memset_zero (settings_cache w)) w in
    let '(main_ok, w) := load_cache MAIN_SETTINGS_PATH w in
    let w :=
      if main_ok then w
      else
        let '(backup_ok, w) := load_cache BACKUP_SETTINGS_PATH w in
        if backup_ok then w
        else
          let w := set_cache (settings_restore_defaults (settings_cache w)) w in
          save_cache io w in
    let w := set_snapshot (settings_cache w) w in
    let w := pthread_mutex_unlock cache_mutex w in
    let w := set_running 1 w in
    if thread_created then
      let w := pthread_mutex_unlock settings_persist_thread_status_mutex w in
      (0, w, Some worker_start)
    else
      let w := set_running 0 w in
      let w := pthread_mutex_unlock settings_persist_thread_status_mutex w in
      (-1, w, None).

(** Returns the value returned, the record behind [settings] after the
    call, and the state after the call. *)
Definition settings_persist_get_data
    (settings : option Settings) (w : World) : Z * option Settings * World :=
  match settings with
  | None => (-1, None, w)
  | Some out =>
      let w := pthread_mutex_lock settings_persist_thread_status_mutex w in
      if Z.eqb (settings_persist_thread_running w) 0 then
        let w := pthread_mutex_unlock settings_persist_thread_status_mutex w in
        (-2, Some out, w)
      else
        let w := pthread_mutex_lock cache_mutex w in
        let out := settings_cache w in
        let w := pthread_mutex_unlock cache_mutex w in
        let w := pthread_mutex_unlock settings_persist_thread_status_mutex w in
        (0, Some out, w)
  end.

Definition settings_persist_set_data
    (settings : option Settings) (w : World) : Z * World :=
  match settings with
  | None => (-1, w)
  | Some s =>
      let w := pthread_mutex_lock settings_persist_thread_status_mutex w in
      if Z.eqb (settings_persist_thread_running w) 0 then
        let w := pthread_mutex_unlock settings_persist_thread_status_mutex w in
        (-2, w)
      else
        let w := pthread_mutex_lock cache_mutex w in
        let w := set_cache s w in
        let w := pthread_mutex_unlock cache_mutex w in
        let w := pthread_mutex_unlock settings_persist_thread_status_mutex w in
        (0, w)
  end.

(** ** Reading a trace *)

(** Whether [m] is held after the events of [tr], given whether it was held
    before them. *)
Fixpoint held_after (m : Mutex) (held : bool) (tr : list Event) : bool :=
  match tr with
  | [] => held
  | EvLock m' :: tr' =>
      held_after m (match m, m' with
                    | cache_mutex, cache_mutex
                    | settings_persist_thread_status_mutex,
                      settings_persist_thread_status_mutex => true
                    | _, _ => held
                    end) tr'
  | EvUnlock m' :: tr' =>
      held_after m (match m, m' with
                    | cache_mutex, cache_mutex
                    | settings_persist_thread_status_mutex,
                      settings_persist_thread_status_mutex => false
                    | _, _ => held
                    end) tr'
  | EvSave _ _ :: tr' => held_after m held tr'
  end.

(** The largest number of locks held at once during [tr], starting with
    none. *)
Fixpoint max_held_from (done tr : list Event) : nat :=
  let now :=
    ((if held_after settings_persist_thread_status_mutex false done then 1 else 0)
     + (if held_after cache_mutex false done then 1 else 0))%nat in
  match tr with
  | [] => now
  | e :: tr' => Nat.max now (max_held_from (done ++ [e]) tr')
  end.

Definition max_held (tr : list Event) : nat := max_held_from [] tr.

Definition is_save (e : Event) : bool :=
  match e with EvSave _ _ => true | _ => false end.

(** The calls of [save_settings_with_crc] in a trace, in order. *)
Definition saves (tr : list Event) : list Event := filter is_save tr.

(** ** A small instance of the collaborators

    A record of four bytes and the checksum field last, stored in a file as
    its memory image.  It gives the general statements below something
    concrete to be evaluated on. *)
Module Demo.

Definition defaults_record : Settings :=
  {| bytes_before := [x01; x02; x03; x04];
     Verify_crc_16_ibm := 0;
     bytes_after := [] |}.

(** Reads a memory image back; anything of another length is refused
    with the line number 1 and nothing handled. *)
Definition parse_image (content : list byte) (s : Settings) : Settings * Z :=
  match content with
  | [b0; b1; b2; b3; lo; hi] =>
      ({| bytes_before := [b0; b1; b2; b3];
          Verify_crc_16_ibm := byte_val lo + 256 * byte_val hi;
          bytes_after := [] |}, 0)
  | _ => (s, 1)
  end.

#[export] Instance collaborators : Collaborators :=
  {| defaults := defaults_record;
     encode := Settings_image;
     ini_parse_file := parse_image |}.

Definition all_ok : SaveIO :=
  {| write_temp_settings := WriteOk;
     write_temp_backup := WriteOk;
     rename_backup_ok := true;
     rename_main_ok := true |}.

Definition no_files : FileSystem := fun _ => None.

(** A record of an earlier generation, with its checksum in place. *)
Definition older_record : Settings :=
  {| bytes_before := [x0a; x0b; x0c; x0d];
     Verify_crc_16_ibm := 0xF837;
     bytes_after := [] |}.

(** Only the main file exists, and it holds [older_record]. *)
Definition main_only : FileSystem :=
  fs_put no_files MAIN_SETTINGS_PATH (Some (Settings_image older_record)).

(** The main file fails its checksum; the backup holds [older_record]. *)
Definition corrupt_main : FileSystem :=
  fs_put (fs_put no_files MAIN_SETTINGS_PATH (Some [x0a; x0b; x0c; x0d; x00; x00]))
    BACKUP_SETTINGS_PATH (Some (Settings_image older_record)).

(** The state before the first initialisation, with the files [fs]. *)
Definition boot_with (fs : FileSystem) : World :=
  {| settings_persist_thread_running := 0;
     settings_cache := memset_zero defaults_record;
     cache_snapshot := memset_zero defaults_record;
     files := fs;
     trace := [] |}.

(** The module runs and a caller has just replaced the cache: it holds
    [defaults_record] while the snapshot still holds [older_record]. *)
Definition edited : World :=
  {| settings_persist_thread_running := 1;
     settings_cache := defaults_record;
     cache_snapshot := older_record;
     files := main_only;
     trace := [] |}.

(** The module runs and the snapshot is the cache. *)
Definition quiet : World :=
  {| settings_persist_thread_running := 1;
     settings_cache := defaults_record;
     cache_snapshot := defaults_record;
     files := main_only;
     trace := [] |}.

(** The state before the first call of [settings_persist_init]. *)
Definition boot : World :=
  {| settings_persist_thread_running := 0;
     settings_cache := memset_zero defaults_record;
     cache_snapshot := memset_zero defaults_record;
     files := no_files;
     trace := [] |}.

End Demo.

(** ** Two threads: a caller of [settings_persist_deinit] and the worker

    [settings_persist_deinit] waits for the worker, so what it does depends
    on how the two threads interleave.  Each thread is a position in its
    code and steps one statement at a time; a lock can be taken only when
    no thread holds it, and [pthread_join] passes only when the worker has
    returned. *)

Inductive Thread : Type := Caller | WorkerThread.

(** Positions in [settings_persist_deinit]. *)
Inductive DeinitPc : Type :=
| D_lock          (* pthread_mutex_lock(&settings_persist_thread_status_mutex) *)
| D_test          (* if (settings_persist_thread_running == 0) *)
| D_unlock_idle   (* the unlock before return 1 *)
| D_clear         (* settings_persist_thread_running = 0 *)
| D_join          (* pthread_join(settings_persist_thread, NULL) *)
| D_unlock        (* the unlock before return 0 *)
| D_return (v : Z).

(** Positions in [work_thread_func]. *)
Inductive WorkerPc : Type :=
| W_lock_status   (* pthread_mutex_lock(&settings_persist_thread_status_mutex) *)
| W_read          (* int running = settings_persist_thread_running *)
| W_unlock_status (* pthread_mutex_unlock(&settings_persist_thread_status_mutex) *)
| W_branch        (* if (!running) break *)
| W_sleep         (* usleep(...) *)
| W_lock_cache    (* pthread_mutex_lock(&cache_mutex) *)
| W_body          (* the comparison, the count and the save *)
| W_unlock_cache  (* pthread_mutex_unlock(&cache_mutex) *)
| W_done.         (* return NULL *)

Record System : Type := mkSystem {
  world : World;
  status_owner : option Thread;
  cache_owner : option Thread;
  deinit_pc : DeinitPc;
  worker_pc : WorkerPc;
  worker_locals : Worker;
  worker_running : Z
}.

Definition is_free (owner : option Thread) : bool :=
  match owner with None => true | Some _ => false end.

(** The next statement of the caller; [None] when it is blocked or has
    returned. *)
Definition deinit_step (st : System) : option System :=
  match deinit_pc st with
  | D_lock =>
      if is_free (status_owner st) then
        Some {| world := pthread_mutex_lock settings_persist_thread_status_mutex (world st);
                status_owner := Some Caller;
                cache_owner := cache_owner st;
                deinit_pc := D_test;
                worker_pc := worker_pc st;
                worker_locals := worker_locals st;
                worker_running := worker_running st |}
      else None
  | D_test =>
      Some {| world := world st;
              status_owner := status_owner st;
              cache_owner := cache_owner st;
              deinit_pc :=
                if Z.eqb (settings_persist_thread_running (world st)) 0
                then D_unlock_idle else D_clear;
              worker_pc := worker_pc st;
              worker_locals := worker_locals st;
              worker_running := worker_running st |}
  | D_unlock_idle =>
      Some {| world := pthread_mutex_unlock settings_persist_thread_status_mutex (world st);
              status_owner := None;
              cache_owner := cache_owner st;
              deinit_pc := D_return 1;
              worker_pc := worker_pc st;
              worker_locals := worker_locals st;
              worker_running := worker_running st |}
  | D_clear =>
      Some {| world := set_running 0 (world st);
              status_owner := status_owner st;
              cache_owner := cache_owner st;
              deinit_pc := D_join;
              worker_pc := worker_pc st;
              worker_locals := worker_locals st;
              worker_running := worker_running st |}
  | D_join =>
      match worker_pc st with
      | W_done =>
          Some {| world := world st;
                  status_owner := status_owner st;
                  cache_owner := cache_owner st;
                  deinit_pc := D_unlock;
                  worker_pc := worker_pc st;
                  worker_locals := worker_locals st;
                  worker_running := worker_running st |}
      | _ => None
      end
  | D_unlock =>
      Some {| world := pthread_mutex_unlock settings_persist_thread_status_mutex (world st);
              status_owner := None;
              cache_owner := cache_owner st;
              deinit_pc := D_return 0;
              worker_pc := worker_pc st;
              worker_locals := worker_locals st;
              worker_running := worker_running st |}
  | D_return _ => None
  end.

Definition worker_at (pc : WorkerPc) (st : System) : System :=
  {| world := world st;
     status_owner := status_owner st;
     cache_owner := cache_owner st;
     deinit_pc := deinit_pc st;
     worker_pc := pc;
     worker_locals := worker_locals st;
     worker_running := worker_running st |}.

(** The next statement of the worker; [io] is what a save would meet. *)
Definition worker_step `{Collaborators} (io : SaveIO) (st : System) : option System :=
  match worker_pc st with
  | W_lock_status =>
      if is_free (status_owner st) then
        Some {| world := pthread_mutex_lock settings_persist_thread_status_mutex (world st);
                status_owner := Some WorkerThread;
                cache_owner := cache_owner st;
                deinit_pc := deinit_pc st;
                worker_pc := W_read;
                worker_locals := worker_locals st;
                worker_running := worker_running st |}
      else None
  | W_read =>
      Some {| world := world st;
              status_owner := status_owner st;
              cache_owner := cache_owner st;
              deinit_pc := deinit_pc st;
              worker_pc := W_unlock_status;
              worker_locals := worker_locals st;
              worker_running := settings_persist_thread_running (world st) |}
  | W_unlock_status =>
      Some {| world := pthread_mutex_unlock settings_persist_thread_status_mutex (world st);
              status_owner := None;
              cache_owner := cache_owner st;
              deinit_pc := deinit_pc st;
              worker_pc := W_branch;
              worker_locals := worker_locals st;
              worker_running := worker_running st |}
  | W_branch =>
      if Z.eqb (worker_running st) 0 then Some (worker_at W_done st)
      else Some (worker_at W_sleep st)
  | W_sleep => Some (worker_at W_lock_cache st)
  | W_lock_cache =>
      if is_free (cache_owner st) then
        Some {| world := pthread_mutex_lock cache_mutex (world st);
                status_owner := status_owner st;
                cache_owner := Some WorkerThread;
                deinit_pc := deinit_pc st;
                worker_pc := W_body;
                worker_locals := worker_locals st;
                worker_running := worker_running st |}
      else None
  | W_body =>
      Some {| world := fst (detect_and_flush io (world st) (worker_locals st));
              status_owner := status_owner st;
              cache_owner := cache_owner st;
              deinit_pc := deinit_pc st;
              worker_pc := W_unlock_cache;
              worker_locals := snd (detect_and_flush io (world st) (worker_locals st));
              worker_running := worker_running st |}
  | W_unlock_cache =>
      Some {| world := pthread_mutex_unlock cache_mutex (world st);
              status_owner := status_owner st;
              cache_owner := None;
              deinit_pc := deinit_pc st;
              worker_pc := W_lock_status;
              worker_locals := worker_locals st;
              worker_running := worker_running st |}
  | W_done => None
  end.

(** One statement of either thread. *)
Definition step `{Collaborators} (st st' : System) : Prop :=
  deinit_step st = Some st' \/ exists io, worker_step io st = Some st'.

(** Any number of steps, in any interleaving. *)
Inductive reaches `{Collaborators} : System -> System -> Prop :=
| reaches_here (st : System) : reaches st st
| reaches_step (st st' st'' : System) :
    reaches st st' -> step st' st'' -> reaches st st''.

(** The caller enters [settings_persist_deinit] in the state [w], with the
    worker at the top of its loop and no lock held. *)
Definition deinit_called (w : World) : System :=
  {| world := w;
     status_owner := None;
     cache_owner := None;
     deinit_pc := D_lock;
     worker_pc := W_lock_status;
     worker_locals := worker_start;
     worker_running := 0 |}.

(** The caller alone, for at most [fuel] statements. *)
Fixpoint deinit_run (fuel : nat) (st : System) : System :=
  match fuel with
  | O => st
  | S fuel' =>
      match deinit_step st with
      | Some st' => deinit_run fuel' st'
      | None => st
      end
  end.

(** What holds in every state the two threads can be in once the caller
    has entered [settings_persist_deinit] on a running module. *)
Definition shutdown_inv (st : System) : Prop :=
  worker_pc st <> W_done
  /\ match deinit_pc st with
     | D_lock =>
         settings_persist_thread_running (world st) <> 0
         /\ status_owner st <> Some Caller
     | D_test =>
         settings_persist_thread_running (world st) <> 0
         /\ status_owner st = Some Caller
     | D_clear | D_join => status_owner st = Some Caller
     | D_unlock_idle | D_unlock | D_return _ => False
     end
  /\ match worker_pc st with
     | W_read => status_owner st = Some WorkerThread
     | W_unlock_status =>
         status_owner st = Some WorkerThread /\ worker_running st <> 0
     | W_branch => worker_running st <> 0
     | _ => True
     end.

(** How many statements the worker can still execute while the caller
    waits in [pthread_join] holding the flag lock. *)
Definition statements_left (pc : WorkerPc) : nat :=
  match pc with
  | W_lock_status => 0
  | W_unlock_cache => 1
  | W_body => 2
  | W_lock_cache => 3
  | W_sleep => 4
  | W_branch => 5
  | W_unlock_status => 6
  | W_read => 7
  | W_done => 0
  end.

(** ** A third thread: a caller of the getter or the setter

    The call is made in the state [st] by a thread that is neither the
    caller of [settings_persist_deinit] nor the worker, and it runs while
    those two stand still.  [pthread_mutex_lock] returns only when no thread
    holds the lock, so the result is [None] when the call comes to a lock
    that another thread holds: it cannot return before that thread moves. *)

Definition set_world (w : World) (st : System) : System :=
  {| world := w;
     status_owner := status_owner st;
     cache_owner := cache_owner st;
     deinit_pc := deinit_pc st;
     worker_pc := worker_pc st;
     worker_locals := worker_locals st;
     worker_running := worker_running st |}.

(** [settings_persist_get_data] with the locks owned: the value returned,
    the record behind [settings] after the call, and the state after it. *)
Definition settings_persist_get_data_blocking
    (settings : option Settings) (st : System) : option (Z * option Settings * System) :=
  match settings with
  | None => Some (-1, None, st)
  | Some out =>
      if is_free (status_owner st) then
        let w := pthread_mutex_lock settings_persist_thread_status_mutex (world st) in
        if Z.eqb (settings_persist_thread_running w) 0 then
          let w := pthread_mutex_unlock settings_persist_thread_status_mutex w in
          Some (-2, Some out, set_world w st)
        else if is_free (cache_owner st) then
          let w := pthread_mutex_lock cache_mutex w in
          let out := settings_cache w in
          let w := pthread_mutex_unlock cache_mutex w in
          let w := pthread_mutex_unlock settings_persist_thread_status_mutex w in
          Some (0, Some out, set_world w st)
        else None
      else None
  end.

(** [settings_persist_set_data] with the locks owned. *)
Definition settings_persist_set_data_blocking
    (settings : option Settings) (st : System) : option (Z * System) :=
  match settings with
  | None => Some (-1, st)
  | Some s =>
      if is_free (status_owner st) then
        let w := pthread_mutex_lock settings_persist_thread_status_mutex (world st) in
        if Z.eqb (settings_persist_thread_running w) 0 then
          let w := pthread_mutex_unlock settings_persist_thread_status_mutex w in
          Some (-2, set_world w st)
        else if is_free (cache_owner st) then
          let w := pthread_mutex_lock cache_mutex w in
          let w := set_cache s w in
          let w := pthread_mutex_unlock cache_mutex w in
          let w := pthread_mutex_unlock settings_persist_thread_status_mutex w in
          Some (0, set_world w st)
        else None
      else None
  end.

(** ** Notions used in the statements *)

(** The step that undoes [Crc.shift_step] on sixteen-bit values. *)
Definition shift_back (y : Z) : Z :=
  if Z.odd y
  then Z.lor (Z.shiftr (Z.lxor y 0x8005) 1) 0x8000
  else Z.shiftr y 1.

(** [l'] is [l] with exactly one byte replaced by another value. *)
Definition one_byte_changed (l l' : list byte) : Prop :=
  exists l1 b b' l2, b <> b' /\ l = l1 ++ b :: l2 /\ l' = l1 ++ b' :: l2.

(** The comparison [load_from_file] makes after a successful parse. *)
Definition verifies (r : Settings) : Prop :=
  calculate_settings_crc (Some r) = Verify_crc_16_ibm r.

(** The value [save_settings_with_crc(&settings_cache)] returns in [w]. *)
Definition save_returns `{Collaborators} (io : SaveIO) (w : World) : bool :=
  fst (fst (save_settings_with_crc io (Some (settings_cache w)) (files w))).

(** The worker has seen a change of the cache of [w0], has taken it as its
    snapshot, and has since counted [n] cycles without a further change and
    without a save. *)
Definition settled_dirty (w0 w : World) (k : Worker) (n : Z) : Prop :=
  settings_persist_thread_running w = settings_persist_thread_running w0
  /\ settings_cache w = settings_cache w0
  /\ cache_snapshot w = settings_cache w0
  /\ files w = files w0
  /\ saves (trace w) = saves (trace w0)
  /\ k = {| cache_changed := true; change_cycle_count := n |}.

(** The worker has nothing pending: its flag is clear and the snapshot is
    the cache; [sv] are the saves made so far. *)
Definition settled_clean (w : World) (k : Worker) (running : Z) (cache : Settings)
    (sv : list Event) : Prop :=
  settings_persist_thread_running w = running
  /\ settings_cache w = cache
  /\ cache_snapshot w = cache
  /\ saves (trace w) = sv
  /\ k = worker_start.

(** Why a load of [f] fails: the file is missing, the parser reports an
    error, or the checksum stored in the file is not the checksum of the
    record read. *)
Definition load_failure `{Collaborators} (fs : FileSystem) (f : Path) : Prop :=
  match fs f with
  | None => True
  | Some content =>
      snd (ini_parse_file content defaults) <> 0
      \/ calculate_settings_crc (Some (fst (ini_parse_file content defaults)))
         <> Verify_crc_16_ibm (fst (ini_parse_file content defaults))
  end.

(** What the locals of the worker satisfy between turns: the count stays
    below the threshold, and it is 0 while nothing is pending. *)
Definition worker_in_bounds (k : Worker) : Prop :=
  0 <= change_cycle_count k < DELAY_WRITE_CYCLES
  /\ (cache_changed k = false -> change_cycle_count k = 0).

(** ** Helper lemmas *)

Lemma all_below_spec (n : nat) (p : Z -> bool) :
  forall acc, all_below n acc p = true ->
  forall x, acc * 2 ^ Z.of_nat n <= x < (acc + 1) * 2 ^ Z.of_nat n -> p x = true.
Proof.
  induction n as [|k IH]; intros acc H x Hx.
  - cbn in Hx. assert (x = acc) as -> by lia. exact H.
  - cbn [all_below] in H. apply andb_prop in H as [Hlo Hhi].
    rewrite Nat2Z.inj_succ, Z.pow_succ_r in Hx by lia.
    destruct (Z_lt_le_dec x ((2 * acc + 1) * 2 ^ Z.of_nat k)) as [Hlt|Hge].
    + apply (IH _ Hlo). lia.
    + apply (IH _ Hhi). lia.
Qed.

(** Every sixteen-bit value. *)
Lemma all_below_16 (p : Z -> bool) :
  all_below 16 0 p = true -> forall x, 0 <= x < 65536 -> p x = true.
Proof.
  intros H x Hx. apply (all_below_spec 16 p 0 H).
  change (2 ^ Z.of_nat 16) with 65536. lia.
Qed.

Example crc_check_value :
  Crc.calculate_crc_16_ibm
    [x31; x32; x33; x34; x35; x36; x37; x38; x39] = 0xBB3D.
Proof. vm_compute. reflexivity. Qed.

Example crc_spec_check_value :
  Crc.checksum_spec
    [x31; x32; x33; x34; x35; x36; x37; x38; x39] = 0xBB3D.
Proof. vm_compute. reflexivity. Qed.


(** ** The checksum unit against its description *)

Lemma u16_in16 (x : Z) : in16 (u16 x).
Proof. unfold in16, u16. apply Z.mod_pos_bound. lia. Qed.

Lemma u16_small (x : Z) : in16 x -> u16 x = x.
Proof. unfold in16, u16. intros H. apply Z.mod_small. exact H. Qed.

Lemma lxor_in16 (a b : Z) : in16 a -> in16 b -> in16 (Z.lxor a b).
Proof.
  unfold in16. intros Ha Hb.
  assert (Hnn : 0 <= Z.lxor a b) by (apply Z.lxor_nonneg; lia).
  split; [exact Hnn|].
  destruct (Z.eq_dec (Z.lxor a b) 0) as [->|Hnz]; [lia|].
  change 65536 with (2 ^ 16). apply Z.log2_lt_pow2; [lia|].
  eapply Z.le_lt_trans; [apply Z.log2_lxor; lia|].
  apply Z.max_lub_lt.
  - destruct (Z.eq_dec a 0) as [->|]; [cbn; lia|].
    apply Z.log2_lt_pow2; [lia|]. change (2 ^ 16) with 65536. lia.
  - destruct (Z.eq_dec b 0) as [->|]; [cbn; lia|].
    apply Z.log2_lt_pow2; [lia|]. change (2 ^ 16) with 65536. lia.
Qed.

Lemma byte_val_range (b : byte) : 0 <= byte_val b < 256.
Proof.
  unfold byte_val. pose proof (Byte.to_N_bounded b) as H. lia.
Qed.

Lemma all_below_8 (p : Z -> bool) :
  all_below 8 0 p = true -> forall x, 0 <= x < 256 -> p x = true.
Proof.
  intros H x Hx. apply (all_below_spec 8 p 0 H).
  change (2 ^ Z.of_nat 8) with 256. lia.
Qed.

Lemma reverse_byte_exhaustive :
  all_below 8 0
    (fun x => Z.eqb (Crc.reverse_byte x) (Crc.reflect 8 x)
              && Z.eqb (Crc.reverse_byte (Crc.reverse_byte x)) x) = true.
Proof. vm_compute. reflexivity. Qed.

Lemma reverse_byte_reflect (b : byte) :
  Crc.reverse_byte (byte_val b) = Crc.reflect 8 (byte_val b).
Proof.
  pose proof (all_below_8 _ reverse_byte_exhaustive _ (byte_val_range b)) as H.
  cbv beta in H. rewrite andb_true_iff, !Z.eqb_eq in H. apply H.
Qed.

Lemma reverse_byte_involutive (b : byte) :
  Crc.reverse_byte (Crc.reverse_byte (byte_val b)) = byte_val b.
Proof.
  pose proof (all_below_8 _ reverse_byte_exhaustive _ (byte_val_range b)) as H.
  cbv beta in H. rewrite andb_true_iff, !Z.eqb_eq in H. apply H.
Qed.

Lemma reverse_byte_range (b : byte) : 0 <= Crc.reverse_byte (byte_val b) < 256.
Proof. unfold Crc.reverse_byte, u8. apply Z.mod_pos_bound. lia. Qed.

Lemma shift_step_exhaustive :
  all_below 16 0
    (fun x => Z.eqb (Crc.shift_step x) (Crc.spec_shift x)
              && (0 <=? Crc.shift_step x) && (Crc.shift_step x <? 65536)) = true.
Proof. vm_compute. reflexivity. Qed.

Lemma shift_step_spec (x : Z) :
  in16 x -> Crc.shift_step x = Crc.spec_shift x /\ in16 (Crc.shift_step x).
Proof.
  intros Hx.
  pose proof (all_below_16 _ shift_step_exhaustive x Hx) as H.
  cbv beta in H. unfold in16 in *.
  rewrite !andb_true_iff, Z.eqb_eq, Z.leb_le, Z.ltb_lt in H. lia.
Qed.

Lemma reverse_loop_exhaustive :
  all_below 16 0
    (fun x => let r := Crc.reverse_loop 16 0 x in
              Z.eqb r (Crc.reflect 16 x)
              && (0 <=? r) && (r <? 65536)
              && Z.eqb (Crc.reverse_loop 16 0 r) x) = true.
Proof. vm_compute. reflexivity. Qed.

Lemma reverse_loop_spec (x : Z) :
  in16 x ->
  Crc.reverse_loop 16 0 x = Crc.reflect 16 x
  /\ in16 (Crc.reverse_loop 16 0 x)
  /\ Crc.reverse_loop 16 0 (Crc.reverse_loop 16 0 x) = x.
Proof.
  intros Hx.
  pose proof (all_below_16 _ reverse_loop_exhaustive x Hx) as H.
  cbv beta zeta in H. unfold in16 in *.
  rewrite !andb_true_iff, !Z.eqb_eq, Z.leb_le, Z.ltb_lt in H. lia.
Qed.

Lemma shift_loop_spec (j : nat) :
  forall x, in16 x ->
  Crc.shift_loop j x = Nat.iter j Crc.spec_shift x /\ in16 (Crc.shift_loop j x).
Proof.
  induction j as [|j IH]; intros x Hx.
  - split; [reflexivity|exact Hx].
  - destruct (shift_step_spec x Hx) as [Heq Hin].
    destruct (IH _ Hin) as [IHeq IHin].
    cbn [Crc.shift_loop]. split; [|exact IHin].
    rewrite IHeq, Heq. symmetry. apply Nat.iter_succ_r.
Qed.

(** The register after the byte has been XORed into its high half. *)
Lemma xor_high_byte (crc : Z) (b : byte) :
  in16 crc ->
  u16 (Z.lxor crc (Z.shiftl (u16 (Crc.reverse_byte (byte_val b))) 8))
  = Z.lxor crc (Crc.reflect 8 (byte_val b) * 2 ^ 8)
  /\ in16 (Z.lxor crc (Crc.reflect 8 (byte_val b) * 2 ^ 8)).
Proof.
  intros Hcrc.
  pose proof (reverse_byte_range b) as Hr.
  rewrite <- reverse_byte_reflect.
  assert (Hsmall : u16 (Crc.reverse_byte (byte_val b)) = Crc.reverse_byte (byte_val b)).
  { apply u16_small. unfold in16. lia. }
  rewrite Hsmall, Z.shiftl_mul_pow2 by lia.
  assert (Hin : in16 (Z.lxor crc (Crc.reverse_byte (byte_val b) * 2 ^ 8))).
  { apply lxor_in16; [exact Hcrc|]. unfold in16. change (2 ^ 8) with 256. lia. }
  split; [apply u16_small; exact Hin|exact Hin].
Qed.

Lemma byte_step_spec (crc : Z) (b : byte) :
  in16 crc ->
  Crc.byte_step crc b = Crc.spec_byte crc b /\ in16 (Crc.byte_step crc b).
Proof.
  intros Hcrc. unfold Crc.byte_step, Crc.spec_byte.
  destruct (xor_high_byte crc b Hcrc) as [Heq Hin].
  rewrite Heq. exact (shift_loop_spec 8 _ Hin).
Qed.

Lemma fold_byte_step_spec (data : list byte) :
  forall crc, in16 crc ->
  fold_left Crc.byte_step data crc = fold_left Crc.spec_byte data crc
  /\ in16 (fold_left Crc.byte_step data crc).
Proof.
  induction data as [|b data IH]; intros crc Hcrc.
  - split; [reflexivity|exact Hcrc].
  - cbn [fold_left]. destruct (byte_step_spec crc b Hcrc) as [Heq Hin].
    rewrite <- Heq. exact (IH _ Hin).
Qed.

Lemma in16_zero : in16 0.
Proof. unfold in16. lia. Qed.

Lemma calculate_crc_16_ibm_range (data : list byte) :
  in16 (Crc.calculate_crc_16_ibm data).
Proof.
  unfold Crc.calculate_crc_16_ibm.
  destruct (fold_byte_step_spec data 0 in16_zero) as [_ Hin].
  destruct (reverse_loop_spec _ Hin) as [_ [Hrange _]]. exact Hrange.
Qed.

(** C4. [calculate_crc_16_ibm] is the reflected CRC-16 the specification
    describes: on every buffer, the empty one included, it returns what
    [checksum_spec] returns (each byte bit-reversed and XORed into the high
    byte of a sixteen-bit register that starts at 0, eight left shifts with
    an XOR of 0x8005 whenever the bit leaving position 15 was set, and the
    final register bit-reversed, with no output XOR); the result is a
    sixteen-bit value; the empty buffer gives 0 and the ASCII digits
    "123456789" give 0xBB3D, the check value of this CRC. *)
Theorem calculate_crc_16_ibm_is_reflected_crc16 :
  (forall data : list byte,
      Crc.calculate_crc_16_ibm data = Crc.checksum_spec data
      /\ 0 <= Crc.calculate_crc_16_ibm data < 65536)
  /\ Crc.calculate_crc_16_ibm [] = 0
  /\ Crc.calculate_crc_16_ibm
       [x31; x32; x33; x34; x35; x36; x37; x38; x39] = 0xBB3D.
Proof.
  split; [|split; vm_compute; reflexivity].
  intros data. split; [|exact (calculate_crc_16_ibm_range data)].
  unfold Crc.calculate_crc_16_ibm, Crc.checksum_spec.
  destruct (fold_byte_step_spec data 0 in16_zero) as [Heq Hin].
  rewrite <- Heq.
  destruct (reverse_loop_spec _ Hin) as [Hreflect _]. exact Hreflect.
Qed.

(** ** The record checksum and the persistence engine *)

Lemma set_crc_16_ibm_twice (r : Settings) (v w : Z) :
  set_crc_16_ibm (set_crc_16_ibm r v) w = set_crc_16_ibm r w.
Proof. reflexivity. Qed.

Lemma calculate_settings_crc_range (r : Settings) :
  in16 (calculate_settings_crc (Some r)).
Proof.
  unfold calculate_settings_crc.
  exact (calculate_crc_16_ibm_range (Settings_image (set_crc_16_ibm r 0))).
Qed.

Lemma zeroed_image (r : Settings) :
  Settings_image (set_crc_16_ibm r 0) = bytes_before r ++ [x00; x00] ++ bytes_after r.
Proof.
  unfold Settings_image, set_crc_16_ibm.
  cbn [bytes_before Verify_crc_16_ibm bytes_after].
  replace (u16_image (u16 0)) with [x00; x00] by (vm_compute; reflexivity).
  reflexivity.
Qed.

(** The checksum does not read the field it is stored in. *)
Lemma calculate_settings_crc_ignores_field (r : Settings) (v : Z) :
  calculate_settings_crc (Some (set_crc_16_ibm r v)) = calculate_settings_crc (Some r).
Proof.
  unfold calculate_settings_crc. cbv zeta.
  rewrite set_crc_16_ibm_twice. reflexivity.
Qed.

(** What [save_settings_with_crc] leaves behind its argument. *)
Lemma save_settings_with_crc_record `{Collaborators}
    (io : SaveIO) (r : Settings) (fs : FileSystem) :
  snd (fst (save_settings_with_crc io (Some r) fs))
  = Some (set_crc_16_ibm r (calculate_settings_crc (Some r))).
Proof.
  unfold save_settings_with_crc, write_settings_to_file, rename.
  destruct io as [w1 w2 mb mm]; cbn [write_temp_settings write_temp_backup
    rename_backup_ok rename_main_ok].
  destruct w1 as [|res1]; cbn; [|reflexivity].
  destruct w2 as [|res2], mb, mm; cbn; reflexivity.
Qed.

(** C5. Round trip.  [calculate_settings_crc] hashes the image of a copy
    whose checksum field is zero, so its value does not depend on what the
    field holds; hence the record obtained by storing the checksum of [r] in
    the field of [r] carries its own checksum.  That record is the one
    [save_settings_with_crc] leaves behind its argument, and a file that the
    parser decodes to it passes the comparison in [load_from_file]. *)
Theorem checksum_round_trip `{Collaborators}
    (r : Settings) (io : SaveIO) (fs fs' : FileSystem)
    (path : Path) (content : list byte) (old : Settings) :
  let r' := set_crc_16_ibm r (calculate_settings_crc (Some r)) in
  calculate_settings_crc (Some r)
    = Crc.calculate_crc_16_ibm
        (bytes_before r ++ [x00; x00] ++ bytes_after r)
  /\ (forall v, calculate_settings_crc (Some (set_crc_16_ibm r v))
                = calculate_settings_crc (Some r))
  /\ Verify_crc_16_ibm r' = calculate_settings_crc (Some r')
  /\ snd (fst (save_settings_with_crc io (Some r) fs)) = Some r'
  /\ (fs' path = Some content ->
      ini_parse_file content defaults = (r', 0) ->
      load_from_file (Some path) (Some old) fs' = (true, Some r')).
Proof.
  intros r'.
  assert (Hself : Verify_crc_16_ibm r' = calculate_settings_crc (Some r')).
  { unfold r'. rewrite calculate_settings_crc_ignores_field.
    cbn [Verify_crc_16_ibm set_crc_16_ibm].
    apply u16_small, calculate_settings_crc_range. }
  split; [unfold calculate_settings_crc; cbv zeta; rewrite zeroed_image; reflexivity|].
  split; [intros v; apply calculate_settings_crc_ignores_field|].
  split; [exact Hself|].
  split; [apply save_settings_with_crc_record|].
  intros Hfile Hparse.
  unfold load_from_file, settings_restore_defaults.
  rewrite Hfile, Hparse. cbn [negb Z.eqb].
  rewrite <- Hself, Z.eqb_refl. reflexivity.
Qed.

Lemma checksum_round_trip_witness :
  let r := Demo.defaults_record in
  let r' := set_crc_16_ibm r (calculate_settings_crc (Some r)) in
  let fs' :=
    snd (@save_settings_with_crc Demo.collaborators Demo.all_ok (Some r) Demo.no_files) in
  fs' MAIN_SETTINGS_PATH = Some (Settings_image r')
  /\ @load_from_file Demo.collaborators
       (Some MAIN_SETTINGS_PATH) (Some (memset_zero r)) fs' = (true, Some r').
Proof.
  intros r r' fs'. split; [reflexivity|].
  apply (@checksum_round_trip Demo.collaborators r Demo.all_ok Demo.no_files fs'
           MAIN_SETTINGS_PATH (Settings_image r') (memset_zero r)).
  - reflexivity.
  - reflexivity.
Defined.

(** C1, as the code has it.  [save_settings_with_crc] stores the checksum
    through its argument: whatever the outcome of the writes and renames,
    the caller's record afterwards has its bytes before and after the field
    as they were and holds [calculate_settings_crc] of itself in
    [Verify.crc_16_ibm].  A null argument returns [false] and touches
    nothing. *)
Theorem save_settings_with_crc_updates_in_place `{Collaborators}
    (io : SaveIO) (r : Settings) (fs : FileSystem) :
  (exists r',
      snd (fst (save_settings_with_crc io (Some r) fs)) = Some r'
      /\ bytes_before r' = bytes_before r
      /\ bytes_after r' = bytes_after r
      /\ Verify_crc_16_ibm r' = calculate_settings_crc (Some r))
  /\ save_settings_with_crc io None fs = (false, None, fs).
Proof.
  split; [|reflexivity].
  exists (set_crc_16_ibm r (calculate_settings_crc (Some r))).
  split; [apply save_settings_with_crc_record|].
  split; [reflexivity|]. split; [reflexivity|].
  cbn [Verify_crc_16_ibm set_crc_16_ibm].
  apply u16_small, calculate_settings_crc_range.
Qed.

(** C1 as stated fails: a record whose field holds 0 comes back from a
    successful save holding 0x9439, so its image is no longer the one
    passed. *)
Lemma save_settings_with_crc_changes_callers_record :
  let r := {| bytes_before := [x01; x02; x03; x04];
              Verify_crc_16_ibm := 0;
              bytes_after := [] |} in
  let r' := {| bytes_before := [x01; x02; x03; x04];
               Verify_crc_16_ibm := 0x9439;
               bytes_after := [] |} in
  fst (@save_settings_with_crc Demo.collaborators Demo.all_ok (Some r) Demo.no_files)
    = (true, Some r')
  /\ Settings_image r = [x01; x02; x03; x04; x00; x00]
  /\ Settings_image r' = [x01; x02; x03; x04; x39; x94]
  /\ memcmp_differs r' r = true.
Proof. vm_compute. repeat split; reflexivity. Qed.

(** ** What the checksum detects *)

Lemma shift_back_exhaustive :
  all_below 16 0 (fun x => Z.eqb (shift_back (Crc.shift_step x)) x) = true.
Proof. vm_compute. reflexivity. Qed.

Lemma shift_step_injective (x y : Z) :
  in16 x -> in16 y -> Crc.shift_step x = Crc.shift_step y -> x = y.
Proof.
  intros Hx Hy Heq.
  pose proof (all_below_16 _ shift_back_exhaustive x Hx) as Bx.
  pose proof (all_below_16 _ shift_back_exhaustive y Hy) as By.
  cbv beta in Bx, By. rewrite Z.eqb_eq in Bx, By.
  rewrite <- Bx, <- By, Heq. reflexivity.
Qed.

Lemma shift_loop_injective (j : nat) :
  forall x y, in16 x -> in16 y -> Crc.shift_loop j x = Crc.shift_loop j y -> x = y.
Proof.
  induction j as [|j IH]; intros x y Hx Hy Heq; [exact Heq|].
  cbn [Crc.shift_loop] in Heq.
  apply shift_step_injective; [exact Hx|exact Hy|].
  apply IH;
    [exact (proj2 (shift_step_spec x Hx))|exact (proj2 (shift_step_spec y Hy))|exact Heq].
Qed.

Lemma lxor_cancel_r (a b k : Z) : Z.lxor a k = Z.lxor b k -> a = b.
Proof.
  intros H.
  rewrite <- (Z.lxor_0_r a), <- (Z.lxor_0_r b), <- (Z.lxor_nilpotent k).
  rewrite <- !Z.lxor_assoc, H. reflexivity.
Qed.

Lemma lxor_cancel_l (a k k' : Z) : Z.lxor a k = Z.lxor a k' -> k = k'.
Proof.
  intros H. rewrite (Z.lxor_comm a k), (Z.lxor_comm a k') in H.
  exact (lxor_cancel_r _ _ _ H).
Qed.

Lemma byte_val_injective (b b' : byte) : byte_val b = byte_val b' -> b = b'.
Proof.
  unfold byte_val. intros H. apply N2Z.inj in H.
  pose proof (Byte.of_to_N b) as E. rewrite H, Byte.of_to_N in E.
  congruence.
Qed.

Lemma reverse_byte_injective (b b' : byte) :
  Crc.reverse_byte (byte_val b) = Crc.reverse_byte (byte_val b') -> b = b'.
Proof.
  intros H. apply byte_val_injective.
  rewrite <- (reverse_byte_involutive b), <- (reverse_byte_involutive b'), H.
  reflexivity.
Qed.

(** The register of [Crc.byte_step] before its eight shifts. *)
Lemma byte_step_unfold (crc : Z) (b : byte) :
  in16 crc ->
  Crc.byte_step crc b
  = Crc.shift_loop 8 (Z.lxor crc (Crc.reverse_byte (byte_val b) * 2 ^ 8))
  /\ in16 (Z.lxor crc (Crc.reverse_byte (byte_val b) * 2 ^ 8)).
Proof.
  intros Hcrc. unfold Crc.byte_step.
  destruct (xor_high_byte crc b Hcrc) as [Heq Hin].
  rewrite <- reverse_byte_reflect in Heq, Hin.
  rewrite Heq. split; [reflexivity|exact Hin].
Qed.

Lemma byte_step_injective_crc (b : byte) (x y : Z) :
  in16 x -> in16 y -> Crc.byte_step x b = Crc.byte_step y b -> x = y.
Proof.
  intros Hx Hy Heq.
  destruct (byte_step_unfold x b Hx) as [Ex Ix].
  destruct (byte_step_unfold y b Hy) as [Ey Iy].
  rewrite Ex, Ey in Heq.
  apply shift_loop_injective in Heq; [|exact Ix|exact Iy].
  exact (lxor_cancel_r _ _ _ Heq).
Qed.

Lemma byte_step_injective_byte (crc : Z) (b b' : byte) :
  in16 crc -> Crc.byte_step crc b = Crc.byte_step crc b' -> b = b'.
Proof.
  intros Hcrc Heq.
  destruct (byte_step_unfold crc b Hcrc) as [Eb Ib].
  destruct (byte_step_unfold crc b' Hcrc) as [Eb' Ib'].
  rewrite Eb, Eb' in Heq.
  apply shift_loop_injective in Heq; [|exact Ib|exact Ib'].
  apply lxor_cancel_l in Heq.
  apply reverse_byte_injective.
  change (2 ^ 8) with 256 in Heq. lia.
Qed.

Lemma fold_byte_step_injective (data : list byte) :
  forall x y, in16 x -> in16 y ->
  fold_left Crc.byte_step data x = fold_left Crc.byte_step data y -> x = y.
Proof.
  induction data as [|b data IH]; intros x y Hx Hy Heq; [exact Heq|].
  cbn [fold_left] in Heq.
  apply (byte_step_injective_crc b); [exact Hx|exact Hy|].
  apply IH;
    [exact (proj2 (byte_step_spec x b Hx))|exact (proj2 (byte_step_spec y b Hy))|exact Heq].
Qed.

Lemma reverse_loop_injective (x y : Z) :
  in16 x -> in16 y ->
  Crc.reverse_loop 16 0 x = Crc.reverse_loop 16 0 y -> x = y.
Proof.
  intros Hx Hy Heq.
  destruct (reverse_loop_spec x Hx) as [_ [_ Ex]].
  destruct (reverse_loop_spec y Hy) as [_ [_ Ey]].
  rewrite <- Ex, <- Ey, Heq. reflexivity.
Qed.

Lemma calculate_crc_16_ibm_unfold (data : list byte) :
  Crc.calculate_crc_16_ibm data
  = Crc.reverse_loop 16 0 (fold_left Crc.byte_step data 0).
Proof. reflexivity. Qed.

Lemma fold_left_cons_eq (A B : Type) (f : A -> B -> A) (b : B) (l : list B) (a : A) :
  fold_left f (b :: l) a = fold_left f l (f a b).
Proof. reflexivity. Qed.

(** Two buffers that differ in exactly one byte have different checksums. *)
Lemma crc_detects_one_byte (l l' : list byte) :
  one_byte_changed l l' ->
  Crc.calculate_crc_16_ibm l <> Crc.calculate_crc_16_ibm l'.
Proof.
  intros (l1 & b & b' & l2 & Hne & El & El') Heq. subst l l'.
  rewrite !calculate_crc_16_ibm_unfold, !fold_left_app, !fold_left_cons_eq in Heq.
  pose proof (proj2 (fold_byte_step_spec l1 0 in16_zero)) as H1.
  pose proof (proj2 (byte_step_spec _ b H1)) as Hb.
  pose proof (proj2 (byte_step_spec _ b' H1)) as Hb'.
  pose proof (reverse_loop_injective _ _
                (proj2 (fold_byte_step_spec l2 _ Hb))
                (proj2 (fold_byte_step_spec l2 _ Hb')) Heq) as Hfold.
  pose proof (fold_byte_step_injective l2 _ _ Hb Hb' Hfold) as Hstep.
  exact (Hne (byte_step_injective_byte _ b b' H1 Hstep)).
Qed.

Lemma one_byte_changed_app_l (l l' t : list byte) :
  one_byte_changed l l' -> one_byte_changed (l ++ t) (l' ++ t).
Proof.
  intros (l1 & b & b' & l2 & Hne & -> & ->).
  exists l1, b, b', (l2 ++ t). split; [exact Hne|].
  rewrite <- !app_assoc. split; reflexivity.
Qed.

Lemma one_byte_changed_app_r (h l l' : list byte) :
  one_byte_changed l l' -> one_byte_changed (h ++ l) (h ++ l').
Proof.
  intros (l1 & b & b' & l2 & Hne & -> & ->).
  exists (h ++ l1), b, b', l2. split; [exact Hne|].
  rewrite <- !app_assoc. split; reflexivity.
Qed.

Lemma calculate_settings_crc_unfold (r : Settings) :
  calculate_settings_crc (Some r)
  = Crc.calculate_crc_16_ibm (bytes_before r ++ [x00; x00] ++ bytes_after r).
Proof.
  unfold calculate_settings_crc. cbv zeta. rewrite zeroed_image. reflexivity.
Qed.

(** C6, as the code has it.  A sixteen-bit checksum cannot tell every pair
    of records apart, but it does tell apart two records that differ in one
    byte: when [r] verifies and [r'] is [r] with exactly one byte outside
    the checksum field replaced (the field kept), [r'] does not verify. *)
Theorem one_byte_mutation_fails_verification (r r' : Settings) :
  verifies r ->
  Verify_crc_16_ibm r' = Verify_crc_16_ibm r ->
  (one_byte_changed (bytes_before r) (bytes_before r')
   /\ bytes_after r' = bytes_after r)
  \/ (bytes_before r' = bytes_before r
      /\ one_byte_changed (bytes_after r) (bytes_after r')) ->
  ~ verifies r'.
Proof.
  unfold verifies. intros Hr Hfield Hchange Hr'.
  rewrite Hfield, <- Hr in Hr'.
  rewrite !calculate_settings_crc_unfold in Hr'.
  symmetry in Hr'. revert Hr'. apply crc_detects_one_byte.
  destruct Hchange as [[Hb Ha]|[Hb Ha]].
  - rewrite Ha. apply one_byte_changed_app_l. exact Hb.
  - rewrite Hb. apply one_byte_changed_app_r, one_byte_changed_app_r. exact Ha.
Qed.

Lemma one_byte_mutation_fails_verification_witness :
  let r := {| bytes_before := [x01; x02; x03; x04];
              Verify_crc_16_ibm := 0x9439;
              bytes_after := [] |} in
  let r' := {| bytes_before := [x01; x02; xff; x04];
               Verify_crc_16_ibm := 0x9439;
               bytes_after := [] |} in
  verifies r /\ ~ verifies r'.
Proof.
  intros r r'.
  assert (Hr : verifies r) by (vm_compute; reflexivity).
  split; [exact Hr|].
  apply (one_byte_mutation_fails_verification r r' Hr).
  - reflexivity.
  - left. split; [|reflexivity].
    exists [x01; x02], x03, xff, [x04].
    split; [discriminate|]. split; reflexivity.
Defined.

(** C6 as stated fails: two records that differ in three bytes outside the
    checksum field, carry the same checksum 0x9439, and both verify. *)
Lemma mutation_passes_verification :
  let r := {| bytes_before := [x01; x02; x03; x04];
              Verify_crc_16_ibm := 0x9439;
              bytes_after := [] |} in
  let r' := {| bytes_before := [x01; x82; x02; xa4];
               Verify_crc_16_ibm := 0x9439;
               bytes_after := [] |} in
  calculate_settings_crc (Some r) = Verify_crc_16_ibm r
  /\ r' <> r
  /\ Verify_crc_16_ibm r' = Verify_crc_16_ibm r
  /\ calculate_settings_crc (Some r') = Verify_crc_16_ibm r'.
Proof.
  intros r r'.
  split; [vm_compute; reflexivity|].
  split; [discriminate|].
  split; [reflexivity|].
  vm_compute; reflexivity.
Qed.

(** ** What a save leaves in the files *)

(** The files after a call that returned [true]. *)
Lemma save_settings_with_crc_success `{Collaborators}
    (io : SaveIO) (r : Settings) (fs : FileSystem) :
  fst (fst (save_settings_with_crc io (Some r) fs)) = true ->
  let r' := set_crc_16_ibm r (calculate_settings_crc (Some r)) in
  let fs' := snd (save_settings_with_crc io (Some r) fs) in
  write_temp_settings io = WriteOk
  /\ fs' MAIN_SETTINGS_PATH = Some (encode r')
  /\ fs' BACKUP_SETTINGS_PATH
     = match write_temp_backup io with
       | WriteOk =>
           if rename_backup_ok io then Some (encode r') else fs BACKUP_SETTINGS_PATH
       | WriteFailed _ => fs BACKUP_SETTINGS_PATH
       end.
Proof.
  unfold save_settings_with_crc, write_settings_to_file, rename, fs_put.
  destruct io as [w1 w2 mb mm]; cbn [write_temp_settings write_temp_backup
    rename_backup_ok rename_main_ok].
  destruct w1 as [|res1]; cbn; [|discriminate].
  destruct w2 as [|res2], mb, mm; cbn; intros Hok;
    try discriminate; repeat split; reflexivity.
Qed.

(** C2, as the code has it.  A save that returns [true] has put the record
    it was given (with its checksum) at the main path.  The backup path
    holds that same record when the backup's staging write and rename both
    succeeded, and is left as it was otherwise; what the main path held
    before the call is not copied anywhere. *)
Theorem backup_holds_the_saved_record `{Collaborators}
    (io : SaveIO) (r : Settings) (fs : FileSystem) :
  fst (fst (save_settings_with_crc io (Some r) fs)) = true ->
  let r' := set_crc_16_ibm r (calculate_settings_crc (Some r)) in
  let fs' := snd (save_settings_with_crc io (Some r) fs) in
  fs' MAIN_SETTINGS_PATH = Some (encode r')
  /\ (write_temp_backup io = WriteOk -> rename_backup_ok io = true ->
      fs' BACKUP_SETTINGS_PATH = fs' MAIN_SETTINGS_PATH)
  /\ (write_temp_backup io <> WriteOk \/ rename_backup_ok io = false ->
      fs' BACKUP_SETTINGS_PATH = fs BACKUP_SETTINGS_PATH).
Proof.
  intros Hok r' fs'.
  destruct (save_settings_with_crc_success io r fs Hok) as [_ [Hmain Hbackup]].
  fold r' fs' in Hmain, Hbackup.
  split; [exact Hmain|]. split.
  - intros Hw Hmv. rewrite Hbackup, Hw, Hmv, Hmain. reflexivity.
  - intros [Hw|Hmv]; rewrite Hbackup.
    + destruct (write_temp_backup io); [contradiction Hw; reflexivity|reflexivity].
    + rewrite Hmv. destruct (write_temp_backup io); reflexivity.
Qed.

Lemma backup_holds_the_saved_record_witness :
  let r := Demo.defaults_record in
  let fs' :=
    snd (@save_settings_with_crc Demo.collaborators Demo.all_ok (Some r)
           Demo.main_only) in
  fst (fst (@save_settings_with_crc Demo.collaborators Demo.all_ok (Some r)
              Demo.main_only)) = true
  /\ fs' MAIN_SETTINGS_PATH = Some [x01; x02; x03; x04; x39; x94]
  /\ fs' BACKUP_SETTINGS_PATH = fs' MAIN_SETTINGS_PATH.
Proof.
  intros r fs'.
  assert (Hok : fst (fst (@save_settings_with_crc Demo.collaborators Demo.all_ok
                            (Some r) Demo.main_only)) = true)
    by (vm_compute; reflexivity).
  split; [exact Hok|].
  destruct (@backup_holds_the_saved_record Demo.collaborators Demo.all_ok r
              Demo.main_only Hok) as [Hmain [Hsame _]].
  split.
  - vm_compute. reflexivity.
  - apply Hsame; reflexivity.
Defined.

(** C2 as stated fails: the main file holds an earlier generation and no
    backup exists; after a successful save of a new record the backup holds
    the new record, byte for byte what the main file now holds, and not what
    the main file held before. *)
Lemma backup_is_not_one_generation_behind :
  let fs := Demo.main_only in
  let result :=
    @save_settings_with_crc Demo.collaborators Demo.all_ok
      (Some Demo.defaults_record) fs in
  let fs' := snd result in
  fst (fst result) = true
  /\ fs MAIN_SETTINGS_PATH = Some [x0a; x0b; x0c; x0d; x37; xf8]
  /\ fs' MAIN_SETTINGS_PATH = Some [x01; x02; x03; x04; x39; x94]
  /\ fs' BACKUP_SETTINGS_PATH = Some [x01; x02; x03; x04; x39; x94]
  /\ fs' BACKUP_SETTINGS_PATH <> fs MAIN_SETTINGS_PATH.
Proof.
  vm_compute. repeat split; try reflexivity. discriminate.
Qed.

(** ** The change detector *)

Lemma bytes_eqb_refl (l : list byte) : bytes_eqb l l = true.
Proof.
  induction l as [|b l IH]; [reflexivity|].
  cbn [bytes_eqb]. rewrite IH, (@Byte.byte_dec_lb b b eq_refl). reflexivity.
Qed.

Lemma bytes_eqb_eq (a b : list byte) : bytes_eqb a b = true -> a = b.
Proof.
  revert b. induction a as [|x a IH]; intros [|y b] H; try discriminate.
  - reflexivity.
  - cbn [bytes_eqb] in H. apply andb_prop in H as [Hxy Hab].
    apply Byte.byte_dec_bl in Hxy. rewrite Hxy, (IH b Hab). reflexivity.
Qed.

(** [memcmp] reports no difference exactly when the images are equal. *)
Lemma memcmp_differs_false_iff (a b : Settings) :
  memcmp_differs a b = false <-> Settings_image a = Settings_image b.
Proof.
  unfold memcmp_differs. rewrite negb_false_iff. split.
  - apply bytes_eqb_eq.
  - intros ->. apply bytes_eqb_refl.
Qed.

Lemma memcmp_differs_same (a : Settings) : memcmp_differs a a = false.
Proof. apply memcmp_differs_false_iff. reflexivity. Qed.

Lemma save_cache_fields `{Collaborators} (io : SaveIO) (w : World) :
  settings_persist_thread_running (save_cache io w) = settings_persist_thread_running w
  /\ settings_cache (save_cache io w)
     = set_crc_16_ibm (settings_cache w) (calculate_settings_crc (Some (settings_cache w)))
  /\ cache_snapshot (save_cache io w) = cache_snapshot w
  /\ files (save_cache io w)
     = snd (save_settings_with_crc io (Some (settings_cache w)) (files w))
  /\ trace (save_cache io w) = trace w ++ [EvSave (settings_cache w) (save_returns io w)].
Proof.
  unfold save_cache, save_returns.
  pose proof (save_settings_with_crc_record io (settings_cache w) (files w)) as Hrec.
  destruct (save_settings_with_crc io (Some (settings_cache w)) (files w))
    as [[returned after] fs].
  cbn [fst snd] in Hrec |- *. rewrite Hrec.
  repeat split; reflexivity.
Qed.

Lemma saves_app (a b : list Event) : saves (a ++ b) = saves a ++ saves b.
Proof. unfold saves. apply filter_app. Qed.

Lemma detect_and_flush_changed `{Collaborators} (io : SaveIO) (w : World) (k : Worker) :
  memcmp_differs (settings_cache w) (cache_snapshot w) = true ->
  detect_and_flush io w k
  = (set_snapshot (settings_cache w) w,
     {| cache_changed := true; change_cycle_count := 0 |}).
Proof. unfold detect_and_flush. intros ->. reflexivity. Qed.

Lemma detect_and_flush_counting `{Collaborators} (io : SaveIO) (w : World) (k : Worker) :
  memcmp_differs (settings_cache w) (cache_snapshot w) = false ->
  cache_changed k = true ->
  u32 (change_cycle_count k + 1) < DELAY_WRITE_CYCLES ->
  detect_and_flush io w k
  = (w, {| cache_changed := true;
           change_cycle_count := u32 (change_cycle_count k + 1) |}).
Proof.
  unfold detect_and_flush. intros -> Hdirty Hlt. rewrite Hdirty.
  cbn [cache_changed change_cycle_count andb].
  apply Z.leb_gt in Hlt. rewrite Hlt. reflexivity.
Qed.

Lemma detect_and_flush_due `{Collaborators} (io : SaveIO) (w : World) (k : Worker) :
  memcmp_differs (settings_cache w) (cache_snapshot w) = false ->
  cache_changed k = true ->
  DELAY_WRITE_CYCLES <= u32 (change_cycle_count k + 1) ->
  detect_and_flush io w k
  = (set_snapshot (settings_cache (save_cache io w)) (save_cache io w), worker_start).
Proof.
  unfold detect_and_flush. intros -> Hdirty Hge. rewrite Hdirty.
  cbn [cache_changed change_cycle_count andb].
  apply Z.leb_le in Hge. rewrite Hge. reflexivity.
Qed.

Lemma detect_and_flush_idle `{Collaborators} (io : SaveIO) (w : World) (k : Worker) :
  memcmp_differs (settings_cache w) (cache_snapshot w) = false ->
  cache_changed k = false ->
  detect_and_flush io w k = (w, k).
Proof.
  unfold detect_and_flush. intros -> Hclean. rewrite Hclean.
  cbv beta iota zeta. rewrite Hclean. reflexivity.
Qed.

(** A turn of the loop while the module runs: the flag is read under its
    own lock, which is released before the cache lock is taken. *)
Lemma work_thread_cycle_running `{Collaborators} (io : SaveIO) (w : World) (k : Worker) :
  settings_persist_thread_running w <> 0 ->
  work_thread_cycle io w k
  = let w1 := pthread_mutex_lock cache_mutex
                (pthread_mutex_unlock settings_persist_thread_status_mutex
                   (pthread_mutex_lock settings_persist_thread_status_mutex w)) in
    (pthread_mutex_unlock cache_mutex (fst (detect_and_flush io w1 k)),
     Some (snd (detect_and_flush io w1 k))).
Proof.
  intros Hrun. unfold work_thread_cycle.
  cbn [pthread_mutex_lock pthread_mutex_unlock emit settings_persist_thread_running].
  apply Z.eqb_neq in Hrun. rewrite Hrun. cbv zeta.
  destruct (detect_and_flush io _ k) as [w' k']. reflexivity.
Qed.

Lemma work_thread_cycle_stopped `{Collaborators} (io : SaveIO) (w : World) (k : Worker) :
  settings_persist_thread_running w = 0 ->
  work_thread_cycle io w k
  = (pthread_mutex_unlock settings_persist_thread_status_mutex
       (pthread_mutex_lock settings_persist_thread_status_mutex w), None).
Proof.
  intros Hrun. unfold work_thread_cycle.
  cbn [pthread_mutex_lock pthread_mutex_unlock emit settings_persist_thread_running].
  rewrite Hrun. reflexivity.
Qed.

Ltac world_fields :=
  cbn [settings_persist_thread_running settings_cache cache_snapshot files trace
       emit pthread_mutex_lock pthread_mutex_unlock
       set_running set_cache set_snapshot set_files fst snd
       cache_changed change_cycle_count].

Ltac world_fields_in H :=
  cbn [settings_persist_thread_running settings_cache cache_snapshot files trace
       emit pthread_mutex_lock pthread_mutex_unlock
       set_running set_cache set_snapshot set_files fst snd
       cache_changed change_cycle_count] in H.

Ltac drop_lock_events :=
  rewrite ?saves_app; cbn [saves filter is_save]; rewrite ?app_nil_r.

(** The turn that sees the change. *)
Lemma cycle_detects `{Collaborators} (io : SaveIO) (w : World) (k : Worker) :
  settings_persist_thread_running w <> 0 ->
  memcmp_differs (settings_cache w) (cache_snapshot w) = true ->
  exists w' k',
    work_thread_cycle io w k = (w', Some k') /\ settled_dirty w w' k' 0.
Proof.
  intros Hrun Hdiff.
  rewrite (work_thread_cycle_running io w k Hrun). cbv zeta.
  rewrite detect_and_flush_changed by exact Hdiff.
  eexists. eexists. split; [reflexivity|].
  unfold settled_dirty. world_fields. drop_lock_events.
  repeat split; reflexivity.
Qed.

(** A turn that only counts. *)
Lemma cycle_counts `{Collaborators} (io : SaveIO) (w0 w : World) (k : Worker) (n : Z) :
  settings_persist_thread_running w0 <> 0 ->
  settled_dirty w0 w k n -> 0 <= n -> n + 1 < DELAY_WRITE_CYCLES ->
  exists w' k',
    work_thread_cycle io w k = (w', Some k') /\ settled_dirty w0 w' k' (n + 1).
Proof.
  intros Hrun (Hr & Hc & Hs & Hf & Hsv & ->) Hn Hlt.
  rewrite <- Hr in Hrun.
  rewrite (work_thread_cycle_running io w _ Hrun). cbv zeta.
  assert (Hu : u32 (n + 1) = n + 1).
  { unfold u32. apply Z.mod_small. unfold DELAY_WRITE_CYCLES in Hlt. lia. }
  rewrite detect_and_flush_counting.
  - eexists. eexists. split; [reflexivity|].
    unfold settled_dirty. world_fields. drop_lock_events.
    rewrite Hu. repeat split; assumption.
  - world_fields. rewrite Hc, Hs. apply memcmp_differs_same.
  - reflexivity.
  - world_fields. rewrite Hu. exact Hlt.
Qed.

(** The turn on which the count reaches the threshold. *)
Lemma cycle_flushes `{Collaborators} (io : SaveIO) (w0 w : World) (k : Worker) :
  settings_persist_thread_running w0 <> 0 ->
  settled_dirty w0 w k (DELAY_WRITE_CYCLES - 1) ->
  exists w' k',
    work_thread_cycle io w k = (w', Some k')
    /\ settled_clean w' k' (settings_persist_thread_running w0)
         (set_crc_16_ibm (settings_cache w0)
            (calculate_settings_crc (Some (settings_cache w0))))
         (saves (trace w0) ++ [EvSave (settings_cache w0) (save_returns io w0)]).
Proof.
  intros Hrun (Hr & Hc & Hs & Hf & Hsv & ->).
  rewrite <- Hr in Hrun.
  rewrite (work_thread_cycle_running io w _ Hrun). cbv zeta.
  rewrite detect_and_flush_due.
  - eexists. eexists. split; [reflexivity|].
    unfold settled_clean. world_fields.
    match goal with |- context [save_cache io ?w1] =>
      destruct (save_cache_fields io w1) as (Sr & Sc & Ss & Sf & St)
    end.
    rewrite Sr, Sc, St. world_fields. drop_lock_events.
    unfold save_returns. world_fields. rewrite Hr, Hc, Hf, Hsv.
    repeat split; reflexivity.
  - world_fields. rewrite Hc, Hs. apply memcmp_differs_same.
  - reflexivity.
  - world_fields. vm_compute. discriminate.
Qed.

(** A turn with nothing pending. *)
Lemma cycle_idles `{Collaborators} (io : SaveIO) (w : World) (k : Worker)
    (running : Z) (cache : Settings) (sv : list Event) :
  running <> 0 ->
  settled_clean w k running cache sv ->
  exists w' k',
    work_thread_cycle io w k = (w', Some k') /\ settled_clean w' k' running cache sv.
Proof.
  intros Hrun (Hr & Hc & Hs & Hsv & ->).
  rewrite <- Hr in Hrun.
  rewrite (work_thread_cycle_running io w _ Hrun). cbv zeta.
  rewrite detect_and_flush_idle.
  - eexists. eexists. split; [reflexivity|].
    unfold settled_clean. world_fields. drop_lock_events.
    repeat split; assumption.
  - world_fields. rewrite Hc, Hs. apply memcmp_differs_same.
  - reflexivity.
Qed.

(** Turns that only count, as many as there are entries in [ios]. *)
Lemma run_counts `{Collaborators} (w0 : World) (ios : list SaveIO) :
  settings_persist_thread_running w0 <> 0 ->
  forall w k n,
  settled_dirty w0 w k n -> 0 <= n ->
  n + Z.of_nat (length ios) < DELAY_WRITE_CYCLES ->
  settled_dirty w0 (fst (work_thread_func ios w k)) (snd (work_thread_func ios w k))
    (n + Z.of_nat (length ios)).
Proof.
  intros Hrun. induction ios as [|io ios IH]; intros w k n Hinv Hn Hlt.
  - cbn [work_thread_func fst snd length Z.of_nat]. rewrite Z.add_0_r. exact Hinv.
  - cbn [length] in Hlt |- *. rewrite Nat2Z.inj_succ in Hlt |- *.
    destruct (cycle_counts io w0 w k n Hrun Hinv Hn) as (w' & k' & E & Hinv'); [lia|].
    cbn [work_thread_func]. rewrite E.
    replace (n + Z.succ (Z.of_nat (length ios)))
      with ((n + 1) + Z.of_nat (length ios)) by lia.
    apply IH; [exact Hinv'|lia|lia].
Qed.

(** Turns with nothing pending. *)
Lemma run_idles `{Collaborators} (ios : list SaveIO)
    (running : Z) (cache : Settings) (sv : list Event) :
  running <> 0 ->
  forall w k,
  settled_clean w k running cache sv ->
  settled_clean (fst (work_thread_func ios w k)) (snd (work_thread_func ios w k))
    running cache sv.
Proof.
  intros Hrun. induction ios as [|io ios IH]; intros w k Hinv.
  - exact Hinv.
  - destruct (cycle_idles io w k running cache sv Hrun Hinv) as (w' & k' & E & Hinv').
    cbn [work_thread_func]. rewrite E. apply IH. exact Hinv'.
Qed.

(** After the change has been seen: no save during the first four quiet
    turns, one save on the fifth, none after it. *)
Lemma run_after_change `{Collaborators} (w0 w : World) (k : Worker) (ios : list SaveIO) :
  settings_persist_thread_running w0 <> 0 ->
  settled_dirty w0 w k 0 ->
  DELAY_WRITE_CYCLES <= Z.of_nat (length ios) ->
  exists ok,
    settled_clean (fst (work_thread_func ios w k)) (snd (work_thread_func ios w k))
      (settings_persist_thread_running w0)
      (set_crc_16_ibm (settings_cache w0)
         (calculate_settings_crc (Some (settings_cache w0))))
      (saves (trace w0) ++ [EvSave (settings_cache w0) ok]).
Proof.
  intros Hrun Hinv Hlen.
  destruct ios as [|i1 [|i2 [|i3 [|i4 [|i5 rest]]]]];
    try (exfalso; cbn in Hlen; unfold DELAY_WRITE_CYCLES in Hlen; lia).
  assert (Hbelow : forall n, 0 <= n <= 3 -> n + 1 < DELAY_WRITE_CYCLES)
    by (unfold DELAY_WRITE_CYCLES; lia).
  destruct (cycle_counts i1 w0 w k 0 Hrun Hinv) as (w1 & k1 & E1 & I1);
    [lia|apply Hbelow; lia|].
  destruct (cycle_counts i2 w0 w1 k1 1 Hrun I1) as (w2 & k2 & E2 & I2);
    [lia|apply Hbelow; lia|].
  destruct (cycle_counts i3 w0 w2 k2 2 Hrun I2) as (w3 & k3 & E3 & I3);
    [lia|apply Hbelow; lia|].
  destruct (cycle_counts i4 w0 w3 k3 3 Hrun I3) as (w4 & k4 & E4 & I4);
    [lia|apply Hbelow; lia|].
  destruct (cycle_flushes i5 w0 w4 k4 Hrun I4) as (w5 & k5 & E5 & Hclean).
  cbn [work_thread_func]. rewrite E1, E2, E3, E4, E5.
  exists (save_returns i5 w0).
  apply run_idles; [exact Hrun|exact Hclean].
Qed.

(** C3. One evaluation of the change detector (the part of a worker turn
    under the cache lock), and a change followed by quiet turns.
    - Cache and snapshot differ: the snapshot becomes the cache, the worker
      is dirty with count 0, and nothing is saved (cache, files and trace
      are as before).
    - They are equal and the worker is dirty: the count is incremented; as
      long as the new count is below [DELAY_WRITE_CYCLES] nothing else
      happens.
    - When the new count reaches [DELAY_WRITE_CYCLES], exactly one call of
      [save_settings_with_crc] on the cache is made, and whatever it
      returns the snapshot becomes the cache and the worker is clean with
      count 0.
    - They are equal and the worker is clean: nothing changes.
    - So, while the module runs, the turn that sees a change followed by
      fewer than five quiet turns makes no save and leaves the worker dirty
      with the number of quiet turns as its count; followed by five or more
      quiet turns it makes exactly one save, of the changed cache, and
      leaves the worker clean with the snapshot equal to the cache. *)
Theorem change_detector_debounces `{Collaborators}
    (w : World) (k : Worker) (io : SaveIO) (ios : list SaveIO) :
  let one := detect_and_flush io w k in
  let run := work_thread_func (io :: ios) w k in
  let differs := memcmp_differs (settings_cache w) (cache_snapshot w) in
  let next := u32 (change_cycle_count k + 1) in
  (differs = true ->
     cache_snapshot (fst one) = settings_cache w
     /\ snd one = {| cache_changed := true; change_cycle_count := 0 |}
     /\ settings_cache (fst one) = settings_cache w
     /\ files (fst one) = files w
     /\ trace (fst one) = trace w)
  /\ (differs = false -> cache_changed k = true -> next < DELAY_WRITE_CYCLES ->
      one = (w, {| cache_changed := true; change_cycle_count := next |}))
  /\ (differs = false -> cache_changed k = true -> DELAY_WRITE_CYCLES <= next ->
      trace (fst one) = trace w ++ [EvSave (settings_cache w) (save_returns io w)]
      /\ cache_snapshot (fst one) = settings_cache (fst one)
      /\ snd one = {| cache_changed := false; change_cycle_count := 0 |})
  /\ (differs = false -> cache_changed k = false -> one = (w, k))
  /\ (settings_persist_thread_running w <> 0 -> differs = true ->
      (Z.of_nat (length ios) < DELAY_WRITE_CYCLES ->
       saves (trace (fst run)) = saves (trace w)
       /\ snd run = {| cache_changed := true;
                       change_cycle_count := Z.of_nat (length ios) |})
      /\ (DELAY_WRITE_CYCLES <= Z.of_nat (length ios) ->
          exists ok,
            saves (trace (fst run))
            = saves (trace w) ++ [EvSave (settings_cache w) ok]
            /\ snd run = {| cache_changed := false; change_cycle_count := 0 |}
            /\ cache_snapshot (fst run) = settings_cache (fst run))).
Proof.
  intros one run differs next. subst one run differs next.
  split; [|split; [|split; [|split]]].
  - intros Hd. rewrite (detect_and_flush_changed io w k Hd).
    world_fields. repeat split; reflexivity.
  - intros Hd Hk Hlt. apply detect_and_flush_counting; assumption.
  - intros Hd Hk Hge. rewrite (detect_and_flush_due io w k Hd Hk Hge).
    world_fields.
    destruct (save_cache_fields io w) as (_ & _ & _ & _ & St).
    rewrite St. repeat split; reflexivity.
  - intros Hd Hk. apply detect_and_flush_idle; assumption.
  - intros Hrun Hd.
    destruct (cycle_detects io w k Hrun Hd) as (w1 & k1 & E1 & Hinv).
    cbn [work_thread_func]. rewrite E1. split.
    + intros Hlt.
      pose proof (run_counts w ios Hrun w1 k1 0 Hinv (Z.le_refl 0) Hlt) as Hn.
      destruct Hn as (_ & _ & _ & _ & Hsv & Hk). split; assumption.
    + intros Hge.
      destruct (run_after_change w w1 k1 ios Hrun Hinv Hge) as (ok & Hclean).
      exists ok. destruct Hclean as (_ & Hc & Hs & Hsv & Hk).
      split; [exact Hsv|]. split; [exact Hk|]. rewrite Hc, Hs. reflexivity.
Qed.

Lemma change_detector_debounces_witness :
  let five := [Demo.all_ok; Demo.all_ok; Demo.all_ok; Demo.all_ok; Demo.all_ok] in
  let dirty n := {| cache_changed := true; change_cycle_count := n |} in
  (snd (@detect_and_flush Demo.collaborators Demo.all_ok Demo.edited worker_start)
   = dirty 0)
  /\ (@detect_and_flush Demo.collaborators Demo.all_ok Demo.quiet (dirty 2)
      = (Demo.quiet, dirty 3))
  /\ (snd (@detect_and_flush Demo.collaborators Demo.all_ok Demo.quiet (dirty 4))
      = worker_start)
  /\ (@detect_and_flush Demo.collaborators Demo.all_ok Demo.quiet worker_start
      = (Demo.quiet, worker_start))
  /\ (saves (trace (fst (@work_thread_func Demo.collaborators
                           [Demo.all_ok; Demo.all_ok; Demo.all_ok]
                           Demo.edited worker_start))) = [])
  /\ (exists ok,
        saves (trace (fst (@work_thread_func Demo.collaborators
                             (Demo.all_ok :: five) Demo.edited worker_start)))
        = [EvSave Demo.defaults_record ok]).
Proof.
  intros five dirty.
  assert (Hrun : settings_persist_thread_running Demo.edited <> 0)
    by (cbn; discriminate).
  assert (Hdiff : memcmp_differs (settings_cache Demo.edited)
                    (cache_snapshot Demo.edited) = true) by reflexivity.
  assert (Hsame : memcmp_differs (settings_cache Demo.quiet)
                    (cache_snapshot Demo.quiet) = false) by reflexivity.
  split; [|split; [|split; [|split; [|split]]]].
  - destruct (@change_detector_debounces Demo.collaborators Demo.edited
                worker_start Demo.all_ok []) as (H1 & _).
    destruct (H1 Hdiff) as (_ & Hk & _). exact Hk.
  - destruct (@change_detector_debounces Demo.collaborators Demo.quiet
                (dirty 2) Demo.all_ok []) as (_ & H2 & _).
    apply H2; [exact Hsame|reflexivity|reflexivity].
  - destruct (@change_detector_debounces Demo.collaborators Demo.quiet
                (dirty 4) Demo.all_ok []) as (_ & _ & H3 & _).
    destruct H3 as (_ & _ & Hk); [exact Hsame|reflexivity|discriminate|exact Hk].
  - destruct (@change_detector_debounces Demo.collaborators Demo.quiet
                worker_start Demo.all_ok []) as (_ & _ & _ & H4 & _).
    apply H4; [exact Hsame|reflexivity].
  - destruct (@change_detector_debounces Demo.collaborators Demo.edited
                worker_start Demo.all_ok [Demo.all_ok; Demo.all_ok])
      as (_ & _ & _ & _ & H5).
    destruct (H5 Hrun Hdiff) as (Hfew & _).
    destruct Hfew as (Hsv & _); [reflexivity|exact Hsv].
  - destruct (@change_detector_debounces Demo.collaborators Demo.edited
                worker_start Demo.all_ok five) as (_ & _ & _ & _ & H5).
    destruct (H5 Hrun Hdiff) as (_ & Hmany).
    destruct Hmany as (ok & Hsv & _); [discriminate|].
    exists ok. exact Hsv.
Defined.

(** ** Loading *)

(** C10, as the code has it.  With both arguments non-null,
    [load_from_file] first stores the defaults in the record and then lets
    the parser apply what it handles, so after the call, failed or not, the
    record holds the defaults overlaid with the parsed values and nothing
    of what it held before; a missing file leaves exactly the defaults.
    With a null file name the call returns [false] and the record is left
    as it was. *)
Theorem load_from_file_overwrites_record `{Collaborators}
    (f : Path) (old : Settings) (fs : FileSystem) :
  snd (load_from_file (Some f) (Some old) fs)
    = Some (match fs f with
            | None => defaults
            | Some content => fst (ini_parse_file content defaults)
            end)
  /\ (forall other, load_from_file (Some f) (Some other) fs
                    = load_from_file (Some f) (Some old) fs)
  /\ load_from_file None (Some old) fs = (false, Some old)
  /\ load_from_file (Some f) None fs = (false, None).
Proof.
  split; [|split; [|split; reflexivity]].
  - unfold load_from_file, settings_restore_defaults.
    destruct (fs f) as [content|]; [|reflexivity].
    destruct (ini_parse_file content defaults) as [s parse_result].
    destruct (negb (parse_result =? 0)); reflexivity.
  - intros other. reflexivity.
Qed.

(** C10 as stated fails, in two ways.  A record that already holds the
    defaults is the same after a failed load of a missing file as before it
    (this is the second load of an initialisation that finds no files); and
    a call with a null file name fails and leaves the caller's record,
    which is not the defaults, exactly as it was. *)
Lemma load_from_file_can_leave_record_unchanged :
  @load_from_file Demo.collaborators
    (Some BACKUP_SETTINGS_PATH) (Some Demo.defaults_record) Demo.no_files
    = (false, Some Demo.defaults_record)
  /\ @load_from_file Demo.collaborators None (Some Demo.older_record) Demo.main_only
     = (false, Some Demo.older_record)
  /\ Demo.older_record <> @defaults Demo.collaborators.
Proof. split; [reflexivity|]. split; [reflexivity|discriminate]. Qed.

(** ** Locks *)

(** What one evaluation of the change detector adds to the trace: nothing,
    or one save. *)
Lemma detect_and_flush_trace `{Collaborators} (io : SaveIO) (w : World) (k : Worker) :
  trace (fst (detect_and_flush io w k)) = trace w
  \/ trace (fst (detect_and_flush io w k))
     = trace w ++ [EvSave (settings_cache w) (save_returns io w)].
Proof.
  destruct (memcmp_differs (settings_cache w) (cache_snapshot w)) eqn:Hd.
  - left. rewrite (detect_and_flush_changed io w k Hd). reflexivity.
  - destruct (cache_changed k) eqn:Hk.
    + destruct (Z_lt_le_dec (u32 (change_cycle_count k + 1)) DELAY_WRITE_CYCLES)
        as [Hlt|Hge].
      * left. rewrite (detect_and_flush_counting io w k Hd Hk Hlt). reflexivity.
      * right. rewrite (detect_and_flush_due io w k Hd Hk Hge). world_fields.
        destruct (save_cache_fields io w) as (_ & _ & _ & _ & St). exact St.
    + left. rewrite (detect_and_flush_idle io w k Hd Hk). reflexivity.
Qed.

(** C9, as the code has it.  Seen from the thread that makes the call, and
    counting only the events the call adds to the trace:
    - a turn of the worker releases the flag lock before it takes the cache
      lock, so it never holds more than one lock;
    - [settings_persist_get_data] and [settings_persist_set_data], given a
      non-null argument while the module runs, take the cache lock while
      they still hold the flag lock and release the two in reverse order,
      so they do hold both at once;
    - when the module does not run they take only the flag lock, and for a
      null argument they take none. *)
Theorem lock_nesting `{Collaborators}
    (io : SaveIO) (w : World) (k : Worker) (out s : Settings) :
  let nested := [EvLock settings_persist_thread_status_mutex; EvLock cache_mutex;
                 EvUnlock cache_mutex; EvUnlock settings_persist_thread_status_mutex] in
  let flag_only := [EvLock settings_persist_thread_status_mutex;
                    EvUnlock settings_persist_thread_status_mutex] in
  let in_turn := [EvLock settings_persist_thread_status_mutex;
                  EvUnlock settings_persist_thread_status_mutex;
                  EvLock cache_mutex] in
  (settings_persist_thread_running w <> 0 ->
     (exists sv,
        (sv = [] \/ sv = [EvSave (settings_cache w) (save_returns io w)])
        /\ trace (fst (work_thread_cycle io w k))
           = trace w ++ in_turn ++ sv ++ [EvUnlock cache_mutex]
        /\ max_held (in_turn ++ sv ++ [EvUnlock cache_mutex]) = 1%nat)
     /\ trace (snd (settings_persist_get_data (Some out) w)) = trace w ++ nested
     /\ trace (snd (settings_persist_set_data (Some s) w)) = trace w ++ nested
     /\ max_held nested = 2%nat)
  /\ (settings_persist_thread_running w = 0 ->
      trace (fst (work_thread_cycle io w k)) = trace w ++ flag_only
      /\ trace (snd (settings_persist_get_data (Some out) w)) = trace w ++ flag_only
      /\ trace (snd (settings_persist_set_data (Some s) w)) = trace w ++ flag_only
      /\ max_held flag_only = 1%nat)
  /\ trace (snd (settings_persist_get_data None w)) = trace w
  /\ trace (snd (settings_persist_set_data None w)) = trace w.
Proof.
  intros nested flag_only in_turn. subst nested flag_only in_turn.
  split; [|split; [|split; reflexivity]].
  - intros Hrun. split; [|split; [|split; [|reflexivity]]].
    + rewrite (work_thread_cycle_running io w k Hrun). cbv zeta.
      world_fields.
      match goal with |- context [detect_and_flush io ?w1 k] =>
        destruct (detect_and_flush_trace io w1 k) as [Ht|Ht]; rewrite Ht
      end; world_fields; rewrite <- !app_assoc; cbn [app].
      * exists []. split; [left; reflexivity|]. split; reflexivity.
      * eexists. split; [right; reflexivity|]. split; reflexivity.
    + unfold settings_persist_get_data. world_fields.
      apply Z.eqb_neq in Hrun. rewrite Hrun. world_fields.
      rewrite <- !app_assoc. reflexivity.
    + unfold settings_persist_set_data. world_fields.
      apply Z.eqb_neq in Hrun. rewrite Hrun. world_fields.
      rewrite <- !app_assoc. reflexivity.
  - intros Hrun. rewrite (work_thread_cycle_stopped io w k Hrun).
    unfold settings_persist_get_data, settings_persist_set_data.
    world_fields. rewrite Hrun. cbn [Z.eqb]. world_fields.
    rewrite <- !app_assoc. repeat split; reflexivity.
Qed.

Lemma lock_nesting_witness :
  trace (snd (settings_persist_get_data (Some Demo.older_record) Demo.quiet))
    = [EvLock settings_persist_thread_status_mutex; EvLock cache_mutex;
       EvUnlock cache_mutex; EvUnlock settings_persist_thread_status_mutex]
  /\ trace (snd (settings_persist_set_data (Some Demo.older_record) Demo.boot))
     = [EvLock settings_persist_thread_status_mutex;
        EvUnlock settings_persist_thread_status_mutex].
Proof.
  destruct (@lock_nesting Demo.collaborators Demo.all_ok Demo.quiet worker_start
              Demo.older_record Demo.older_record) as (Hrunning & _).
  destruct (@lock_nesting Demo.collaborators Demo.all_ok Demo.boot worker_start
              Demo.older_record Demo.older_record) as (_ & Hstopped & _).
  destruct Hrunning as (_ & G & _); [discriminate|].
  destruct Hstopped as (_ & _ & S & _); [reflexivity|].
  split; [exact G|exact S].
Defined.

(** C9 as stated fails: a successful [settings_persist_get_data] (and
    likewise [settings_persist_set_data]) takes the cache lock while it
    holds the flag lock, so at that point it holds two locks. *)
Lemma get_data_holds_both_locks :
  let tr := trace (snd (settings_persist_get_data (Some Demo.older_record) Demo.quiet)) in
  let tr' := trace (snd (settings_persist_set_data (Some Demo.older_record) Demo.quiet)) in
  fst (fst (settings_persist_get_data (Some Demo.older_record) Demo.quiet)) = 0
  /\ tr = [EvLock settings_persist_thread_status_mutex; EvLock cache_mutex;
           EvUnlock cache_mutex; EvUnlock settings_persist_thread_status_mutex]
  /\ max_held tr = 2%nat
  /\ max_held tr' = 2%nat.
Proof. repeat split; reflexivity. Qed.

(** ** Initialisation *)

Lemma load_from_file_record `{Collaborators} (f : Path) (old : Settings) (fs : FileSystem) :
  exists s, snd (load_from_file (Some f) (Some old) fs) = Some s.
Proof.
  unfold load_from_file, settings_restore_defaults.
  destruct (fs f) as [content|]; [|eexists; reflexivity].
  destruct (ini_parse_file content defaults) as [s parse_result].
  destruct (negb (parse_result =? 0)); eexists; reflexivity.
Qed.

Lemma load_from_file_any_old `{Collaborators} (f : Path) (a b : Settings) (fs : FileSystem) :
  load_from_file (Some f) (Some a) fs = load_from_file (Some f) (Some b) fs.
Proof. reflexivity. Qed.

Lemma load_from_file_fails_iff `{Collaborators} (f : Path) (old : Settings) (fs : FileSystem) :
  fst (load_from_file (Some f) (Some old) fs) = false <-> load_failure fs f.
Proof.
  unfold load_from_file, load_failure, settings_restore_defaults.
  destruct (fs f) as [content|]; [|cbn; tauto].
  destruct (ini_parse_file content defaults) as [s parse_result]. cbn [fst snd].
  destruct (Z.eqb_spec parse_result 0) as [->|Hne]; cbn [negb fst].
  - rewrite Z.eqb_neq. split; [intros Hcrc; right; exact Hcrc|].
    intros [Hbad|Hcrc]; [contradiction Hbad; reflexivity|exact Hcrc].
  - split; [intros _; left; exact Hne|reflexivity].
Qed.

Lemma load_cache_spec `{Collaborators} (path : Path) (w : World) (old : Settings) :
  exists s,
    snd (load_from_file (Some path) (Some old) (files w)) = Some s
    /\ load_cache path w
       = (fst (load_from_file (Some path) (Some old) (files w)), set_cache s w).
Proof.
  destruct (load_from_file_record path old (files w)) as [s Hs].
  exists s. split; [exact Hs|].
  unfold load_cache.
  rewrite (load_from_file_any_old path (settings_cache w) old (files w)).
  destruct (load_from_file (Some path) (Some old) (files w)) as [result after].
  cbn [fst snd] in Hs |- *. rewrite Hs. reflexivity.
Qed.

(** C7. [settings_persist_init] on a module that is not yet running.  It
    loads the main file; only when that fails it loads the backup; only
    when that fails too it stores the defaults in the cache and makes one
    call of [save_settings_with_crc] on them.  Whatever that call meets,
    the cache then holds the defaults, with their checksum in the checksum
    field.  A load fails exactly when the file is missing, the parser
    reports an error, or the checksum does not match; it does not depend on
    what the record held before (the record is reset to the defaults
    first), so [old] is arbitrary.  In every case the snapshot is the
    cache, and the value returned is decided by the creation of the worker
    alone: no outcome of the loads or of the save reaches the caller. *)
Theorem init_load_cascade `{Collaborators}
    (io : SaveIO) (thread_created : bool) (w : World) (old : Settings) :
  settings_persist_thread_running w <> 1 ->
  let res := settings_persist_init io thread_created w in
  let w' := snd (fst res) in
  let main := load_from_file (Some MAIN_SETTINGS_PATH) (Some old) (files w) in
  let backup := load_from_file (Some BACKUP_SETTINGS_PATH) (Some old) (files w) in
  (fst main = true ->
     Some (settings_cache w') = snd main
     /\ saves (trace w') = saves (trace w) /\ files w' = files w)
  /\ (fst main = false -> fst backup = true ->
      Some (settings_cache w') = snd backup
      /\ saves (trace w') = saves (trace w) /\ files w' = files w)
  /\ (fst main = false -> fst backup = false ->
      settings_cache w'
      = set_crc_16_ibm defaults (calculate_settings_crc (Some defaults))
      /\ bytes_before (settings_cache w') = bytes_before defaults
      /\ bytes_after (settings_cache w') = bytes_after defaults
      /\ exists ok, saves (trace w') = saves (trace w) ++ [EvSave defaults ok])
  /\ (fst main = false <-> load_failure (files w) MAIN_SETTINGS_PATH)
  /\ (fst backup = false <-> load_failure (files w) BACKUP_SETTINGS_PATH)
  /\ cache_snapshot w' = settings_cache w'
  /\ fst (fst res) = (if thread_created then 0 else -1)
  /\ settings_persist_thread_running w' = (if thread_created then 1 else 0).
Proof.
  intros Hrun res w' main backup. subst res w' main backup.
  unfold settings_persist_init. world_fields.
  apply Z.eqb_neq in Hrun. rewrite Hrun.
  match goal with |- context [load_cache MAIN_SETTINGS_PATH ?w1] =>
    destruct (load_cache_spec MAIN_SETTINGS_PATH w1 old) as (sm & Hsm & Em);
    rewrite Em; clear Em
  end.
  world_fields. world_fields_in Hsm.
  pose proof (load_from_file_fails_iff MAIN_SETTINGS_PATH old (files w)) as Fm.
  pose proof (load_from_file_fails_iff BACKUP_SETTINGS_PATH old (files w)) as Fb.
  destruct (fst (load_from_file (Some MAIN_SETTINGS_PATH) (Some old) (files w)))
    eqn:Hmain.
  - (* the main file is good *)
    rewrite Hsm.
    split; [intros _|split; [discriminate|split; [discriminate|]]].
    + destruct thread_created; world_fields; drop_lock_events;
        repeat split; reflexivity.
    + split; [exact Fm|].
      split; [exact Fb|].
      destruct thread_created; world_fields; repeat split; reflexivity.
  - match goal with |- context [load_cache BACKUP_SETTINGS_PATH ?w2] =>
      destruct (load_cache_spec BACKUP_SETTINGS_PATH w2 old) as (sb & Hsb & Eb);
      rewrite Eb; clear Eb
    end.
    world_fields. world_fields_in Hsb.
    destruct (fst (load_from_file (Some BACKUP_SETTINGS_PATH) (Some old) (files w)))
      eqn:Hbackup.
    + (* the backup is good *)
      rewrite Hsb.
      split; [discriminate|split; [intros _ _|split; [discriminate|]]].
      * destruct thread_created; world_fields; drop_lock_events;
          repeat split; reflexivity.
      * split; [exact Fm|].
        split; [exact Fb|].
        destruct thread_created; world_fields; repeat split; reflexivity.
    + (* neither is: defaults, and one save *)
      unfold settings_restore_defaults.
      match goal with |- context [save_cache io ?w3] =>
        destruct (save_cache_fields io w3) as (Sr & Sc & Ss & Sf & St);
        set (w4 := save_cache io w3) in *
      end.
      world_fields. world_fields_in Sc. world_fields_in St.
      split; [discriminate|split; [discriminate|split; [intros _ _|]]].
      * assert (Hc : settings_cache
                       (snd (fst (if thread_created
                                  then (0,
                                        pthread_mutex_unlock settings_persist_thread_status_mutex
                                          (set_running 1
                                             (pthread_mutex_unlock cache_mutex
                                                (set_snapshot (settings_cache w4) w4))),
                                        Some worker_start)
                                  else (-1,
                                        pthread_mutex_unlock settings_persist_thread_status_mutex
                                          (set_running 0
                                             (set_running 1
                                                (pthread_mutex_unlock cache_mutex
                                                   (set_snapshot (settings_cache w4) w4)))),
                                        None))))
                     = set_crc_16_ibm defaults (calculate_settings_crc (Some defaults))).
        { destruct thread_created; world_fields; exact Sc. }
        split; [exact Hc|]. rewrite Hc.
        split; [reflexivity|]. split; [reflexivity|].
        eexists.
        destruct thread_created; world_fields; rewrite St; drop_lock_events;
          reflexivity.
      * split; [exact Fm|].
        split; [exact Fb|].
        destruct thread_created; world_fields; repeat split; reflexivity.
Qed.

Lemma init_load_cascade_witness :
  let start fs :=
    snd (fst (@settings_persist_init Demo.collaborators Demo.all_ok true
                (Demo.boot_with fs))) in
  Some (settings_cache (start Demo.main_only)) = Some Demo.older_record
  /\ Some (settings_cache (start Demo.corrupt_main)) = Some Demo.older_record
  /\ settings_cache (start Demo.no_files)
     = {| bytes_before := [x01; x02; x03; x04];
          Verify_crc_16_ibm := 0x9439;
          bytes_after := [] |}
  /\ fst (fst (@settings_persist_init Demo.collaborators Demo.all_ok true
                 (Demo.boot_with Demo.no_files))) = 0.
Proof.
  intros start. subst start. cbv beta.
  assert (Hrun : forall fs, settings_persist_thread_running (Demo.boot_with fs) <> 1)
    by (intros fs; cbn; discriminate).
  split; [|split; [|split]].
  - destruct (@init_load_cascade Demo.collaborators Demo.all_ok true
                (Demo.boot_with Demo.main_only) Demo.defaults_record
                (Hrun Demo.main_only)) as (Hmain & _).
    destruct Hmain as (Hc & _); [reflexivity|].
    rewrite Hc. reflexivity.
  - destruct (@init_load_cascade Demo.collaborators Demo.all_ok true
                (Demo.boot_with Demo.corrupt_main) Demo.defaults_record
                (Hrun Demo.corrupt_main)) as (_ & Hbackup & _).
    destruct Hbackup as (Hc & _); [reflexivity|reflexivity|].
    rewrite Hc. reflexivity.
  - destruct (@init_load_cascade Demo.collaborators Demo.all_ok true
                (Demo.boot_with Demo.no_files) Demo.defaults_record
                (Hrun Demo.no_files)) as (_ & _ & Hdefaults & _).
    destruct Hdefaults as (Hc & _); [reflexivity|reflexivity|].
    rewrite Hc. reflexivity.
  - destruct (@init_load_cascade Demo.collaborators Demo.all_ok true
                (Demo.boot_with Demo.no_files) Demo.defaults_record
                (Hrun Demo.no_files)) as (_ & _ & _ & _ & _ & _ & Hret & _).
    exact Hret.
Defined.

(** * Further properties of the code *)

(** ** The checksum *)

Lemma fold_left_nil_eq (A B : Type) (f : A -> B -> A) (a : A) :
  fold_left f [] a = a.
Proof. reflexivity. Qed.

Lemma byte_step_zero : Crc.byte_step 0 x00 = 0.
Proof. vm_compute. reflexivity. Qed.

Lemma reverse_loop_zero : Crc.reverse_loop 16 0 0 = 0.
Proof. vm_compute. reflexivity. Qed.

Lemma fold_byte_step_zeros (n : nat) :
  fold_left Crc.byte_step (repeat x00 n) 0 = 0.
Proof.
  induction n as [|n IH]; [reflexivity|].
  cbn [repeat]. rewrite fold_left_cons_eq, byte_step_zero. exact IH.
Qed.

(** X1. The register starts at 0 and a zero byte leaves a zero register at
    zero, so [calculate_crc_16_ibm] does not see zero bytes in front of a
    buffer: any number of them can be prepended, or removed, without
    changing the checksum. *)
Theorem leading_zero_bytes_are_not_seen (n : nat) (data : list byte) :
  Crc.calculate_crc_16_ibm (repeat x00 n ++ data) = Crc.calculate_crc_16_ibm data.
Proof.
  rewrite !calculate_crc_16_ibm_unfold, fold_left_app, fold_byte_step_zeros.
  reflexivity.
Qed.

Lemma residue_exhaustive :
  all_below 16 0
    (fun s => let c := Crc.reverse_loop 16 0 s in
              Z.eqb (Crc.byte_step (Crc.byte_step s (byte_of_Z c))
                       (byte_of_Z (Z.shiftr c 8))) 0) = true.
Proof. vm_compute. reflexivity. Qed.

(** X2. A buffer followed by its own checksum, low byte first, has
    checksum 0: the usual way to check a frame protected by this CRC. *)
Theorem checksum_of_buffer_with_its_checksum_is_zero (data : list byte) :
  Crc.calculate_crc_16_ibm (data ++ u16_image (Crc.calculate_crc_16_ibm data)) = 0.
Proof.
  rewrite (calculate_crc_16_ibm_unfold (data ++ _)), fold_left_app.
  rewrite (calculate_crc_16_ibm_unfold data).
  pose proof (proj2 (fold_byte_step_spec data 0 in16_zero)) as Hs.
  pose proof (all_below_16 _ residue_exhaustive _ Hs) as Hres.
  cbv beta zeta in Hres. apply Z.eqb_eq in Hres.
  unfold u16_image.
  rewrite !fold_left_cons_eq, fold_left_nil_eq, Hres.
  exact reverse_loop_zero.
Qed.

(** ** Saving *)

Ltac save_cases io :=
  unfold save_settings_with_crc, write_settings_to_file, rename, fs_put;
  destruct io as [w1 w2 mb mm];
  cbn [write_temp_settings write_temp_backup rename_backup_ok rename_main_ok];
  destruct w1 as [|res1]; [destruct w2 as [|res2], mb, mm|]; cbn.

(** X3. [save_settings_with_crc] returns [true] exactly when the staging
    write of the main file and the rename onto the main path succeed: what
    happens to the backup never decides the result. *)
Theorem save_succeeds_iff_main_is_committed `{Collaborators}
    (io : SaveIO) (r : Settings) (fs : FileSystem) :
  fst (fst (save_settings_with_crc io (Some r) fs)) = true
  <-> write_temp_settings io = WriteOk /\ rename_main_ok io = true.
Proof.
  save_cases io; split;
    solve [ intros; split; reflexivity
          | intros; reflexivity
          | discriminate
          | intros [? ?]; discriminate ].
Qed.

Lemma save_succeeds_iff_main_is_committed_witness :
  fst (fst (@save_settings_with_crc Demo.collaborators
              {| write_temp_settings := WriteOk;
                 write_temp_backup := WriteFailed None;
                 rename_backup_ok := false;
                 rename_main_ok := true |}
              (Some Demo.defaults_record) Demo.main_only)) = true.
Proof.
  apply (@save_succeeds_iff_main_is_committed Demo.collaborators).
  split; reflexivity.
Defined.

(** X4. A save that returns [false] has not touched the main file: the
    main path holds exactly what it held before.  When it is the staging
    write of the main file that failed, the backup path is untouched as
    well, and only the staging path of the main file may have changed. *)
Theorem failed_save_keeps_main_file `{Collaborators}
    (io : SaveIO) (r : Settings) (fs : FileSystem) :
  fst (fst (save_settings_with_crc io (Some r) fs)) = false ->
  let fs' := snd (save_settings_with_crc io (Some r) fs) in
  fs' MAIN_SETTINGS_PATH = fs MAIN_SETTINGS_PATH
  /\ (write_temp_settings io <> WriteOk ->
      fs' BACKUP_SETTINGS_PATH = fs BACKUP_SETTINGS_PATH
      /\ fs' TEMP_BACKUP_PATH = fs TEMP_BACKUP_PATH).
Proof.
  save_cases io; intros Hfail; try discriminate;
    (split; [reflexivity|intros Hw; try (contradiction Hw; reflexivity);
                         split; reflexivity]).
Qed.

Lemma failed_save_keeps_main_file_witness :
  let io := {| write_temp_settings := WriteFailed (Some [x01; x02]);
               write_temp_backup := WriteOk;
               rename_backup_ok := true;
               rename_main_ok := true |} in
  let fs' := snd (@save_settings_with_crc Demo.collaborators io
                    (Some Demo.defaults_record) Demo.main_only) in
  fs' MAIN_SETTINGS_PATH = Demo.main_only MAIN_SETTINGS_PATH
  /\ fs' BACKUP_SETTINGS_PATH = Demo.main_only BACKUP_SETTINGS_PATH.
Proof.
  intros io fs'.
  destruct (@failed_save_keeps_main_file Demo.collaborators io
              Demo.defaults_record Demo.main_only) as (Hmain & Hrest).
  - reflexivity.
  - split; [exact Hmain|]. apply Hrest. discriminate.
Defined.

(** X5. When both staging writes and the backup's rename succeed but the
    rename onto the main path fails, the save returns [false] with the
    backup already replaced: the backup holds the new record while the main
    file still holds the old one, and the main staging file is left behind
    holding the new record. *)
Theorem failed_commit_leaves_backup_ahead `{Collaborators}
    (io : SaveIO) (r : Settings) (fs : FileSystem) :
  write_temp_settings io = WriteOk ->
  write_temp_backup io = WriteOk ->
  rename_backup_ok io = true ->
  rename_main_ok io = false ->
  let r' := set_crc_16_ibm r (calculate_settings_crc (Some r)) in
  let fs' := snd (save_settings_with_crc io (Some r) fs) in
  fst (fst (save_settings_with_crc io (Some r) fs)) = false
  /\ fs' MAIN_SETTINGS_PATH = fs MAIN_SETTINGS_PATH
  /\ fs' BACKUP_SETTINGS_PATH = Some (encode r')
  /\ fs' TEMP_SETTINGS_PATH = Some (encode r')
  /\ fs' TEMP_BACKUP_PATH = None.
Proof.
  destruct io as [w1 w2 mb mm];
    cbn [write_temp_settings write_temp_backup rename_backup_ok rename_main_ok].
  intros -> -> -> ->.
  unfold save_settings_with_crc, write_settings_to_file, rename, fs_put.
  cbn. repeat split; reflexivity.
Qed.

Lemma failed_commit_leaves_backup_ahead_witness :
  let io := {| write_temp_settings := WriteOk;
               write_temp_backup := WriteOk;
               rename_backup_ok := true;
               rename_main_ok := false |} in
  let fs' := snd (@save_settings_with_crc Demo.collaborators io
                    (Some Demo.defaults_record) Demo.main_only) in
  fs' MAIN_SETTINGS_PATH = Some [x0a; x0b; x0c; x0d; x37; xf8]
  /\ fs' BACKUP_SETTINGS_PATH = Some [x01; x02; x03; x04; x39; x94].
Proof.
  intros io fs'.
  destruct (@failed_commit_leaves_backup_ahead Demo.collaborators io
              Demo.defaults_record Demo.main_only
              eq_refl eq_refl eq_refl eq_refl) as (_ & Hmain & Hbackup & _).
  fold fs' in Hmain, Hbackup.
  split.
  - rewrite Hmain. reflexivity.
  - rewrite Hbackup. vm_compute. reflexivity.
Defined.

(** X6. A save on which nothing fails leaves no staging file behind: after
    it neither staging path exists, and the main and the backup path hold
    the same bytes. *)
Theorem clean_save_leaves_no_staging_files `{Collaborators}
    (io : SaveIO) (r : Settings) (fs : FileSystem) :
  write_temp_settings io = WriteOk ->
  write_temp_backup io = WriteOk ->
  rename_backup_ok io = true ->
  rename_main_ok io = true ->
  let fs' := snd (save_settings_with_crc io (Some r) fs) in
  fs' TEMP_SETTINGS_PATH = None
  /\ fs' TEMP_BACKUP_PATH = None
  /\ fs' MAIN_SETTINGS_PATH = fs' BACKUP_SETTINGS_PATH
  /\ fs' MAIN_SETTINGS_PATH <> None.
Proof.
  destruct io as [w1 w2 mb mm];
    cbn [write_temp_settings write_temp_backup rename_backup_ok rename_main_ok].
  intros -> -> -> ->.
  unfold save_settings_with_crc, write_settings_to_file, rename, fs_put.
  cbn. repeat split; try reflexivity. discriminate.
Qed.

Lemma clean_save_leaves_no_staging_files_witness :
  let fs' := snd (@save_settings_with_crc Demo.collaborators Demo.all_ok
                    (Some Demo.defaults_record) Demo.main_only) in
  fs' TEMP_SETTINGS_PATH = None /\ fs' TEMP_BACKUP_PATH = None.
Proof.
  intros fs'.
  destruct (@clean_save_leaves_no_staging_files Demo.collaborators Demo.all_ok
              Demo.defaults_record Demo.main_only
              eq_refl eq_refl eq_refl eq_refl) as (Hm & Hb & _).
  split; [exact Hm|exact Hb].
Defined.

Lemma stored_checksum_verifies (r : Settings) :
  verifies (set_crc_16_ibm r (calculate_settings_crc (Some r))).
Proof.
  unfold verifies. rewrite calculate_settings_crc_ignores_field.
  cbn [Verify_crc_16_ibm set_crc_16_ibm]. symmetry.
  apply u16_small, calculate_settings_crc_range.
Qed.

(** A file that exists, parses without error to [s], and carries the
    checksum of [s] loads as [s]. *)
Lemma load_from_file_good `{Collaborators}
    (path : Path) (old s : Settings) (fs : FileSystem) (content : list byte) :
  fs path = Some content ->
  ini_parse_file content defaults = (s, 0) ->
  verifies s ->
  load_from_file (Some path) (Some old) fs = (true, Some s).
Proof.
  unfold verifies. intros Hfile Hparse Hv.
  unfold load_from_file, settings_restore_defaults.
  rewrite Hfile, Hparse. cbn [negb Z.eqb].
  rewrite Hv, Z.eqb_refl. reflexivity.
Qed.

(** X7. Save, then load.  When the parser reads back what the serializer
    wrote for the saved record, a load of the main path after a successful
    save succeeds and returns the record the save left behind its argument
    (the record passed, with its checksum); the same holds for the backup
    path when the backup's staging write and rename succeeded. *)
Theorem load_after_save_returns_saved_record `{Collaborators}
    (io : SaveIO) (r old : Settings) (fs : FileSystem) :
  let r' := set_crc_16_ibm r (calculate_settings_crc (Some r)) in
  let fs' := snd (save_settings_with_crc io (Some r) fs) in
  fst (fst (save_settings_with_crc io (Some r) fs)) = true ->
  ini_parse_file (encode r') defaults = (r', 0) ->
  load_from_file (Some MAIN_SETTINGS_PATH) (Some old) fs' = (true, Some r')
  /\ (write_temp_backup io = WriteOk -> rename_backup_ok io = true ->
      load_from_file (Some BACKUP_SETTINGS_PATH) (Some old) fs' = (true, Some r')).
Proof.
  intros r' fs' Hok Hparse.
  destruct (save_settings_with_crc_success io r fs Hok) as (_ & Hmain & Hbackup).
  fold r' fs' in Hmain, Hbackup.
  pose proof (stored_checksum_verifies r) as Hv. fold r' in Hv.
  split.
  - exact (load_from_file_good MAIN_SETTINGS_PATH old r' fs' _ Hmain Hparse Hv).
  - intros Hw Hmv. rewrite Hw, Hmv in Hbackup.
    exact (load_from_file_good BACKUP_SETTINGS_PATH old r' fs' _ Hbackup Hparse Hv).
Qed.

Lemma load_after_save_returns_saved_record_witness :
  let fs' := snd (@save_settings_with_crc Demo.collaborators Demo.all_ok
                    (Some Demo.defaults_record) Demo.main_only) in
  let r' := {| bytes_before := [x01; x02; x03; x04];
               Verify_crc_16_ibm := 0x9439;
               bytes_after := [] |} in
  @load_from_file Demo.collaborators (Some MAIN_SETTINGS_PATH)
    (Some Demo.older_record) fs' = (true, Some r')
  /\ @load_from_file Demo.collaborators (Some BACKUP_SETTINGS_PATH)
       (Some Demo.older_record) fs' = (true, Some r').
Proof.
  intros fs' r'.
  destruct (@load_after_save_returns_saved_record Demo.collaborators Demo.all_ok
              Demo.defaults_record Demo.older_record Demo.main_only)
    as (Hmain & Hbackup).
  - reflexivity.
  - reflexivity.
  - split; [exact Hmain|]. apply Hbackup; reflexivity.
Defined.

(** X8. Saving is idempotent on the record: the record a save leaves behind
    its argument is left exactly as it is by any further save, whatever
    either call meets. *)
Theorem save_is_idempotent_on_the_record `{Collaborators}
    (io io' : SaveIO) (r : Settings) (fs fs' : FileSystem) :
  let once := snd (fst (save_settings_with_crc io (Some r) fs)) in
  snd (fst (save_settings_with_crc io' once fs')) = once.
Proof.
  intros once. subst once.
  rewrite (save_settings_with_crc_record io r fs).
  rewrite (save_settings_with_crc_record io' _ fs').
  rewrite calculate_settings_crc_ignores_field, set_crc_16_ibm_twice.
  reflexivity.
Qed.

(** ** Lifecycle and access, continued *)

(** X9. [settings_persist_init] on a module that already runs returns 1
    and does nothing else: no load, no save, no worker; the cache, the
    snapshot, the files and the flag are as they were, and the flag lock it
    took has been released. *)
Theorem init_when_running_does_nothing `{Collaborators}
    (io : SaveIO) (thread_created : bool) (w : World) :
  settings_persist_thread_running w = 1 ->
  let res := settings_persist_init io thread_created w in
  let w' := snd (fst res) in
  fst (fst res) = 1
  /\ snd res = None
  /\ settings_persist_thread_running w' = 1
  /\ settings_cache w' = settings_cache w
  /\ cache_snapshot w' = cache_snapshot w
  /\ files w' = files w
  /\ trace w' = trace w ++ [EvLock settings_persist_thread_status_mutex;
                            EvUnlock settings_persist_thread_status_mutex].
Proof.
  intros Hrun res w'. subst res w'.
  unfold settings_persist_init. world_fields. rewrite Hrun. cbn [Z.eqb Pos.eqb].
  world_fields. rewrite <- app_assoc. repeat split; try reflexivity. exact Hrun.
Qed.

Lemma init_when_running_does_nothing_witness :
  fst (fst (@settings_persist_init Demo.collaborators Demo.all_ok true Demo.edited)) = 1
  /\ settings_cache
       (snd (fst (@settings_persist_init Demo.collaborators Demo.all_ok true Demo.edited)))
     = Demo.defaults_record.
Proof.
  destruct (@init_when_running_does_nothing Demo.collaborators Demo.all_ok true
              Demo.edited eq_refl) as (Hret & _ & _ & Hcache & _).
  split; [exact Hret|exact Hcache].
Defined.

(** X10. While the module runs, what [settings_persist_set_data] stores is
    what the next [settings_persist_get_data] returns, whole; neither call
    touches the files, the snapshot or the flag, and neither saves. *)
Theorem get_after_set_returns_the_record_set
    (w : World) (s out : Settings) :
  settings_persist_thread_running w <> 0 ->
  let w1 := snd (settings_persist_set_data (Some s) w) in
  let got := settings_persist_get_data (Some out) w1 in
  fst got = (0, Some s)
  /\ files (snd got) = files w
  /\ cache_snapshot (snd got) = cache_snapshot w
  /\ settings_persist_thread_running (snd got) = settings_persist_thread_running w
  /\ saves (trace (snd got)) = saves (trace w).
Proof.
  intros Hrun w1 got. subst w1 got.
  unfold settings_persist_get_data, settings_persist_set_data.
  world_fields. apply Z.eqb_neq in Hrun. rewrite Hrun. world_fields.
  rewrite Hrun. world_fields. drop_lock_events.
  repeat split; reflexivity.
Qed.

Lemma get_after_set_returns_the_record_set_witness :
  fst (settings_persist_get_data (Some Demo.defaults_record)
         (snd (settings_persist_set_data (Some Demo.older_record) Demo.quiet)))
  = (0, Some Demo.older_record).
Proof.
  destruct (get_after_set_returns_the_record_set Demo.quiet Demo.older_record
              Demo.defaults_record) as (Hgot & _).
  - discriminate.
  - exact Hgot.
Defined.

(** ** The worker, continued *)

(** What one evaluation leaves: the snapshot is the cache, byte for byte. *)
Lemma detect_and_flush_levels `{Collaborators} (io : SaveIO) (w : World) (k : Worker) :
  memcmp_differs (settings_cache (fst (detect_and_flush io w k)))
    (cache_snapshot (fst (detect_and_flush io w k))) = false.
Proof.
  destruct (memcmp_differs (settings_cache w) (cache_snapshot w)) eqn:Hd.
  - rewrite (detect_and_flush_changed io w k Hd). world_fields.
    apply memcmp_differs_same.
  - destruct (cache_changed k) eqn:Hk.
    + destruct (Z_lt_le_dec (u32 (change_cycle_count k + 1)) DELAY_WRITE_CYCLES)
        as [Hlt|Hge].
      * rewrite (detect_and_flush_counting io w k Hd Hk Hlt). exact Hd.
      * rewrite (detect_and_flush_due io w k Hd Hk Hge). world_fields.
        apply memcmp_differs_same.
    + rewrite (detect_and_flush_idle io w k Hd Hk). exact Hd.
Qed.

Lemma detect_and_flush_bounds `{Collaborators} (io : SaveIO) (w : World) (k : Worker) :
  worker_in_bounds k -> worker_in_bounds (snd (detect_and_flush io w k)).
Proof.
  unfold worker_in_bounds, DELAY_WRITE_CYCLES. intros (Hrange & Hclean).
  destruct (memcmp_differs (settings_cache w) (cache_snapshot w)) eqn:Hd.
  - rewrite (detect_and_flush_changed io w k Hd). world_fields.
    split; [lia|discriminate].
  - destruct (cache_changed k) eqn:Hk.
    + destruct (Z_lt_le_dec (u32 (change_cycle_count k + 1)) DELAY_WRITE_CYCLES)
        as [Hlt|Hge].
      * rewrite (detect_and_flush_counting io w k Hd Hk Hlt). world_fields.
        unfold DELAY_WRITE_CYCLES in Hlt. split; [|discriminate].
        split; [|exact Hlt]. unfold u32. apply Z.mod_pos_bound. lia.
      * rewrite (detect_and_flush_due io w k Hd Hk Hge).
        cbn [snd worker_start cache_changed change_cycle_count].
        split; [lia|reflexivity].
    + rewrite (detect_and_flush_idle io w k Hd Hk). cbn [snd].
      split; [exact Hrange|intros _; apply Hclean; reflexivity].
Qed.

(** X11. What the worker keeps, whatever the callers do between its turns.
    After every evaluation of the change detector the snapshot equals the
    cache byte for byte (also after a save, which rewrites the checksum
    field of the cache: the snapshot is taken after it, so a save never
    looks like a new change).  And the count of the worker, which starts at
    0, stays below [DELAY_WRITE_CYCLES] and is 0 whenever nothing is
    pending, so the [uint32_t] never wraps. *)
Theorem worker_invariants `{Collaborators} (io : SaveIO) (w : World) (k : Worker) :
  memcmp_differs (settings_cache (fst (detect_and_flush io w k)))
    (cache_snapshot (fst (detect_and_flush io w k))) = false
  /\ worker_in_bounds worker_start
  /\ (worker_in_bounds k ->
      worker_in_bounds (snd (detect_and_flush io w k))
      /\ change_cycle_count k + 1 = u32 (change_cycle_count k + 1)).
Proof.
  split; [apply detect_and_flush_levels|].
  split; [unfold worker_in_bounds, DELAY_WRITE_CYCLES; cbn; split; [lia|reflexivity]|].
  intros Hk. split; [apply detect_and_flush_bounds; exact Hk|].
  destruct Hk as (Hrange & _). unfold DELAY_WRITE_CYCLES in Hrange.
  unfold u32. symmetry. apply Z.mod_small. lia.
Qed.

Lemma worker_invariants_witness :
  worker_in_bounds
    (snd (@detect_and_flush Demo.collaborators Demo.all_ok Demo.quiet
            {| cache_changed := true; change_cycle_count := 4 |})).
Proof.
  destruct (@worker_invariants Demo.collaborators Demo.all_ok Demo.quiet
              {| cache_changed := true; change_cycle_count := 4 |})
    as (_ & _ & Hstep).
  apply Hstep. unfold worker_in_bounds, DELAY_WRITE_CYCLES. cbn.
  split; [lia|discriminate].
Defined.

Lemma set_data_fields (w : World) (s : Settings) :
  settings_persist_thread_running w <> 0 ->
  let w' := snd (settings_persist_set_data (Some s) w) in
  settings_persist_thread_running w' = settings_persist_thread_running w
  /\ settings_cache w' = s
  /\ cache_snapshot w' = cache_snapshot w
  /\ files w' = files w
  /\ saves (trace w') = saves (trace w).
Proof.
  intros Hrun w'. subst w'. unfold settings_persist_set_data.
  world_fields. apply Z.eqb_neq in Hrun. rewrite Hrun. world_fields.
  drop_lock_events. repeat split; reflexivity.
Qed.

(** X12. Only the last change is written.  The worker sees a change; fewer
    than five quiet turns later a caller stores another record, different
    from the first; then at least five quiet turns pass.  Over the whole run
    exactly one save is made, of the second record: the first one never
    reaches the files. *)
Theorem only_the_last_change_is_saved `{Collaborators}
    (w : World) (k : Worker) (io1 io2 : SaveIO) (ios1 ios2 : list SaveIO)
    (s2 : Settings) :
  settings_persist_thread_running w <> 0 ->
  memcmp_differs (settings_cache w) (cache_snapshot w) = true ->
  Z.of_nat (length ios1) < DELAY_WRITE_CYCLES ->
  memcmp_differs s2 (settings_cache w) = true ->
  DELAY_WRITE_CYCLES <= Z.of_nat (length ios2) ->
  let first := work_thread_func (io1 :: ios1) w k in
  let w2 := snd (settings_persist_set_data (Some s2) (fst first)) in
  let second := work_thread_func (io2 :: ios2) w2 (snd first) in
  saves (trace (fst first)) = saves (trace w)
  /\ exists ok,
       saves (trace (fst second)) = saves (trace w) ++ [EvSave s2 ok]
       /\ snd second = worker_start.
Proof.
  intros Hrun Hd Hfew Hd2 Hmany first w2 second. subst first w2 second.
  destruct (cycle_detects io1 w k Hrun Hd) as (wa & ka & Ea & Ia).
  cbn [work_thread_func]. rewrite Ea.
  pose proof (run_counts w ios1 Hrun wa ka 0 Ia (Z.le_refl 0) Hfew) as I1.
  destruct (work_thread_func ios1 wa ka) as [w1 k1]. cbn [fst snd] in I1 |- *.
  destruct I1 as (Hr1 & Hc1 & Hs1 & Hf1 & Hsv1 & Hk1).
  split; [exact Hsv1|].
  assert (Hrun1 : settings_persist_thread_running w1 <> 0)
    by (rewrite Hr1; exact Hrun).
  destruct (set_data_fields w1 s2 Hrun1) as (Hr2 & Hc2 & Hs2 & Hf2 & Hsv2).
  set (w2 := snd (settings_persist_set_data (Some s2) w1)) in *.
  assert (Hrun2 : settings_persist_thread_running w2 <> 0)
    by (rewrite Hr2; exact Hrun1).
  assert (Hdiff2 : memcmp_differs (settings_cache w2) (cache_snapshot w2) = true)
    by (rewrite Hc2, Hs2, Hs1; exact Hd2).
  destruct (cycle_detects io2 w2 k1 Hrun2 Hdiff2) as (wb & kb & Eb & Ib).
  rewrite Eb.
  destruct (run_after_change w2 wb kb ios2 Hrun2 Ib Hmany) as (ok & Hclean).
  exists ok. destruct Hclean as (_ & _ & _ & Hsv & Hk).
  rewrite Hsv, Hsv2, Hsv1, Hc2. split; [reflexivity|exact Hk].
Qed.

Lemma only_the_last_change_is_saved_witness :
  let five := [Demo.all_ok; Demo.all_ok; Demo.all_ok; Demo.all_ok; Demo.all_ok] in
  let first := @work_thread_func Demo.collaborators
                 [Demo.all_ok; Demo.all_ok; Demo.all_ok] Demo.edited worker_start in
  let w2 := snd (settings_persist_set_data (Some Demo.older_record) (fst first)) in
  let second := @work_thread_func Demo.collaborators (Demo.all_ok :: five) w2
                  (snd first) in
  exists ok, saves (trace (fst second)) = [EvSave Demo.older_record ok].
Proof.
  intros five first w2 second.
  destruct (@only_the_last_change_is_saved Demo.collaborators Demo.edited
              worker_start Demo.all_ok Demo.all_ok [Demo.all_ok; Demo.all_ok] five
              Demo.older_record) as (_ & ok & Hsv & _).
  - discriminate.
  - reflexivity.
  - reflexivity.
  - reflexivity.
  - discriminate.
  - exists ok. exact Hsv.
Defined.

(** After a call of [settings_persist_init] that started the worker. *)
Lemma init_started `{Collaborators} (io : SaveIO) (w : World) :
  settings_persist_thread_running w <> 1 ->
  let res := settings_persist_init io true w in
  fst (fst res) = 0
  /\ snd res = Some worker_start
  /\ settings_persist_thread_running (snd (fst res)) = 1
  /\ cache_snapshot (snd (fst res)) = settings_cache (snd (fst res)).
Proof.
  intros Hrun res. subst res. unfold settings_persist_init. world_fields.
  apply Z.eqb_neq in Hrun. rewrite Hrun.
  destruct (load_cache MAIN_SETTINGS_PATH _) as [[|] w1].
  - world_fields. repeat split; reflexivity.
  - destruct (load_cache BACKUP_SETTINGS_PATH _) as [[|] w2];
      world_fields; repeat split; reflexivity.
Qed.

(** X14. A start followed by no edit writes nothing more.  After a call of
    [settings_persist_init] that started the worker, the worker finds the
    snapshot equal to the cache: however many turns it takes, it makes no
    save beyond what the initialisation itself did and leaves the cache
    alone, and [settings_persist_get_data] returns the record the
    initialisation put in the cache. *)
Theorem quiet_start_writes_nothing `{Collaborators}
    (io : SaveIO) (ios : list SaveIO) (w : World) (out : Settings) :
  settings_persist_thread_running w <> 1 ->
  let started := snd (fst (settings_persist_init io true w)) in
  let run := work_thread_func ios started worker_start in
  saves (trace (fst run)) = saves (trace started)
  /\ settings_cache (fst run) = settings_cache started
  /\ snd run = worker_start
  /\ fst (settings_persist_get_data (Some out) (fst run))
     = (0, Some (settings_cache started)).
Proof.
  intros Hrun started run. subst run.
  destruct (init_started io w Hrun) as (_ & _ & Hr & Hs). fold started in Hr, Hs.
  assert (Hclean : settled_clean started worker_start 1 (settings_cache started)
                     (saves (trace started))).
  { unfold settled_clean. repeat split; try reflexivity; assumption. }
  assert (Hone : 1 <> 0) by discriminate.
  pose proof (run_idles ios 1 (settings_cache started) (saves (trace started))
                Hone started worker_start Hclean) as (Hr' & Hc' & _ & Hsv' & Hk').
  split; [exact Hsv'|]. split; [exact Hc'|]. split; [exact Hk'|].
  unfold settings_persist_get_data. world_fields. rewrite Hr'. cbn [Z.eqb].
  world_fields. rewrite Hc'. reflexivity.
Qed.

Lemma quiet_start_writes_nothing_witness :
  let started :=
    snd (fst (@settings_persist_init Demo.collaborators Demo.all_ok true
                (Demo.boot_with Demo.main_only))) in
  saves (trace (fst (@work_thread_func Demo.collaborators
                       [Demo.all_ok; Demo.all_ok; Demo.all_ok; Demo.all_ok;
                        Demo.all_ok; Demo.all_ok; Demo.all_ok]
                       started worker_start))) = [].
Proof.
  intros started.
  destruct (@quiet_start_writes_nothing Demo.collaborators Demo.all_ok
              [Demo.all_ok; Demo.all_ok; Demo.all_ok; Demo.all_ok;
               Demo.all_ok; Demo.all_ok; Demo.all_ok]
              (Demo.boot_with Demo.main_only) Demo.defaults_record)
    as (Hsv & _).
  - cbn. discriminate.
  - fold started in Hsv. rewrite Hsv. reflexivity.
Defined.

(** ** Stopping *)

Lemma detect_and_flush_keeps_flag `{Collaborators} (io : SaveIO) (w : World) (k : Worker) :
  settings_persist_thread_running (fst (detect_and_flush io w k))
  = settings_persist_thread_running w.
Proof.
  destruct (memcmp_differs (settings_cache w) (cache_snapshot w)) eqn:Hd.
  - rewrite (detect_and_flush_changed io w k Hd). reflexivity.
  - destruct (cache_changed k) eqn:Hk.
    + destruct (Z_lt_le_dec (u32 (change_cycle_count k + 1)) DELAY_WRITE_CYCLES)
        as [Hlt|Hge].
      * rewrite (detect_and_flush_counting io w k Hd Hk Hlt). reflexivity.
      * rewrite (detect_and_flush_due io w k Hd Hk Hge). world_fields.
        destruct (save_cache_fields io w) as (Sr & _). exact Sr.
    + rewrite (detect_and_flush_idle io w k Hd Hk). reflexivity.
Qed.

Ltac system_fields :=
  cbn [world status_owner cache_owner deinit_pc worker_pc worker_locals
       worker_running worker_at] in *.

Lemma deinit_called_inv (w : World) :
  settings_persist_thread_running w <> 0 -> shutdown_inv (deinit_called w).
Proof.
  intros Hrun. unfold shutdown_inv, deinit_called. system_fields.
  split; [discriminate|]. split; [|exact I]. split; [exact Hrun|discriminate].
Qed.

Ltac shutdown_solve :=
  system_fields; world_fields;
  repeat match goal with H : _ /\ _ |- _ => destruct H end;
  repeat match goal with |- _ /\ _ => split end;
  try exact I; try congruence; try tauto.

Lemma deinit_step_inv (st st' : System) :
  shutdown_inv st -> deinit_step st = Some st' -> shutdown_inv st'.
Proof.
  unfold shutdown_inv, deinit_step. intros (Hw & Hd & Hk) Hstep.
  destruct (deinit_pc st) eqn:Epc; try contradiction.
  - (* D_lock *)
    destruct (status_owner st) as [t|] eqn:Eo; cbn [is_free] in Hstep; [discriminate|].
    injection Hstep as <-. system_fields.
    destruct (worker_pc st); shutdown_solve.
  - (* D_test *)
    injection Hstep as <-. destruct Hd as (Hrun & Ho).
    apply Z.eqb_neq in Hrun. system_fields. rewrite Hrun.
    destruct (worker_pc st); shutdown_solve.
  - (* D_clear *)
    injection Hstep as <-. system_fields.
    destruct (worker_pc st); shutdown_solve.
  - (* D_join *)
    destruct (worker_pc st); try discriminate. contradiction Hw. reflexivity.
Qed.

Lemma worker_step_inv `{Collaborators} (io : SaveIO) (st st' : System) :
  shutdown_inv st -> worker_step io st = Some st' -> shutdown_inv st'.
Proof.
  unfold shutdown_inv, worker_step. intros (Hw & Hd & Hk) Hstep.
  destruct (worker_pc st) eqn:Epc.
  - (* W_lock_status *)
    destruct (status_owner st) as [t|] eqn:Eo; cbn [is_free] in Hstep; [discriminate|].
    injection Hstep as <-. system_fields.
    destruct (deinit_pc st); shutdown_solve.
  - (* W_read *)
    injection Hstep as <-. system_fields.
    destruct (deinit_pc st); shutdown_solve.
  - (* W_unlock_status *)
    injection Hstep as <-. destruct Hk as (Ho & Hr).
    destruct (deinit_pc st); shutdown_solve.
  - (* W_branch *)
    apply Z.eqb_neq in Hk. rewrite Hk in Hstep.
    injection Hstep as <-. system_fields.
    destruct (deinit_pc st); shutdown_solve.
  - (* W_sleep *)
    injection Hstep as <-. system_fields.
    destruct (deinit_pc st); shutdown_solve.
  - (* W_lock_cache *)
    destruct (is_free (cache_owner st)); [|discriminate].
    injection Hstep as <-. system_fields.
    destruct (deinit_pc st); shutdown_solve.
  - (* W_body *)
    injection Hstep as <-. system_fields.
    rewrite detect_and_flush_keeps_flag.
    destruct (deinit_pc st); shutdown_solve.
  - (* W_unlock_cache *)
    injection Hstep as <-. system_fields.
    destruct (deinit_pc st); shutdown_solve.
  - discriminate.
Qed.

Lemma reaches_inv `{Collaborators} (st st' : System) :
  shutdown_inv st -> reaches st st' -> shutdown_inv st'.
Proof.
  intros Hinv Hreach. induction Hreach as [st|st st' st'' _ IH Hstep].
  - exact Hinv.
  - destruct Hstep as [Hd|[io Hw]].
    + exact (deinit_step_inv _ _ (IH Hinv) Hd).
    + exact (worker_step_inv io _ _ (IH Hinv) Hw).
Qed.

(** While the caller waits in [pthread_join], only the worker moves, and
    every statement it executes brings it closer to the lock it cannot
    take. *)
Lemma step_while_joining `{Collaborators} (st st' : System) :
  shutdown_inv st -> deinit_pc st = D_join -> step st st' ->
  deinit_pc st' = D_join
  /\ (statements_left (worker_pc st') < statements_left (worker_pc st))%nat.
Proof.
  unfold shutdown_inv. intros (Hw & Hd & Hk) Hpc Hstep.
  rewrite Hpc in Hd.
  destruct Hstep as [Hstep|[io Hstep]].
  - unfold deinit_step in Hstep. rewrite Hpc in Hstep.
    destruct (worker_pc st); try discriminate. contradiction Hw. reflexivity.
  - unfold worker_step in Hstep.
    destruct (worker_pc st) eqn:Epc.
    + rewrite Hd in Hstep. discriminate.
    + rewrite Hd in Hk. discriminate.
    + destruct Hk as [Hk _]. rewrite Hd in Hk. discriminate.
    + apply Z.eqb_neq in Hk. rewrite Hk in Hstep.
      injection Hstep as <-. system_fields. split; [exact Hpc|apply Nat.lt_succ_diag_r].
    + injection Hstep as <-. system_fields. split; [exact Hpc|apply Nat.lt_succ_diag_r].
    + destruct (is_free (cache_owner st)); [|discriminate].
      injection Hstep as <-. system_fields. split; [exact Hpc|apply Nat.lt_succ_diag_r].
    + injection Hstep as <-. system_fields. split; [exact Hpc|apply Nat.lt_succ_diag_r].
    + injection Hstep as <-. system_fields. split; [exact Hpc|apply Nat.lt_succ_diag_r].
    + discriminate.
Qed.

(** X15. [settings_persist_deinit] called on a running module never
    returns.  It keeps the flag lock while it waits in [pthread_join]; the
    worker can leave its loop only after reading the flag, which it does
    under that same lock.  So in every interleaving of the two threads, from
    the moment the caller enters [settings_persist_deinit] with the worker
    in its loop: the caller never reaches a [return], the worker never
    returns, and once the caller is in [pthread_join] every further step is
    a statement of the worker that brings it closer to the top of its loop,
    where, at the latest after the turn in progress, neither thread can
    move. *)
Theorem deinit_never_returns_while_worker_runs `{Collaborators}
    (w : World) (st : System) :
  settings_persist_thread_running w <> 0 ->
  reaches (deinit_called w) st ->
  (forall v, deinit_pc st <> D_return v)
  /\ worker_pc st <> W_done
  /\ (deinit_pc st = D_join ->
      status_owner st = Some Caller
      /\ (forall st', step st st' ->
          deinit_pc st' = D_join
          /\ (statements_left (worker_pc st') < statements_left (worker_pc st))%nat)
      /\ (worker_pc st = W_lock_status -> forall st', ~ step st st')).
Proof.
  intros Hrun Hreach.
  pose proof (reaches_inv _ _ (deinit_called_inv w Hrun) Hreach) as Hinv.
  pose proof Hinv as (Hw & Hd & Hk).
  split; [|split; [exact Hw|]].
  - intros v Hv. rewrite Hv in Hd. exact Hd.
  - intros Hpc. rewrite Hpc in Hd. split; [exact Hd|]. split.
    + intros st' Hstep. exact (step_while_joining st st' Hinv Hpc Hstep).
    + intros Htop st' Hstep.
      destruct (step_while_joining st st' Hinv Hpc Hstep) as (_ & Hlt).
      rewrite Htop in Hlt. cbn [statements_left] in Hlt.
      exact (Nat.nlt_0_r _ Hlt).
Qed.

Lemma deinit_never_returns_while_worker_runs_witness :
  let st := deinit_run 3 (deinit_called Demo.quiet) in
  deinit_pc st = D_join
  /\ settings_persist_thread_running (world st) = 0
  /\ worker_pc st = W_lock_status
  /\ forall st', ~ @step Demo.collaborators st st'.
Proof.
  intros st.
  assert (Hreach : @reaches Demo.collaborators (deinit_called Demo.quiet) st).
  { eapply reaches_step; [eapply reaches_step; [eapply reaches_step;
      [apply reaches_here|]|]|]; left; reflexivity. }
  assert (Hrun : settings_persist_thread_running Demo.quiet <> 0)
    by (cbn; discriminate).
  destruct (@deinit_never_returns_while_worker_runs Demo.collaborators Demo.quiet st
              Hrun Hreach) as (_ & _ & Hjoin).
  destruct (Hjoin eq_refl) as (_ & _ & Hstuck).
  split; [reflexivity|]. split; [reflexivity|]. split; [reflexivity|].
  exact (Hstuck eq_refl).
Defined.

(** X16. [settings_persist_deinit] called when the flag is 0 returns 1 after
    three statements (lock, test, unlock): the flag lock is free again,
    and the cache, the snapshot, the files and the flag are as they were. *)
Theorem deinit_when_not_running_returns_1 (st : System) :
  deinit_pc st = D_lock ->
  status_owner st = None ->
  settings_persist_thread_running (world st) = 0 ->
  let st' := deinit_run 3 st in
  deinit_pc st' = D_return 1
  /\ deinit_step st' = None
  /\ status_owner st' = None
  /\ settings_persist_thread_running (world st') = 0
  /\ settings_cache (world st') = settings_cache (world st)
  /\ cache_snapshot (world st') = cache_snapshot (world st)
  /\ files (world st') = files (world st)
  /\ trace (world st') = trace (world st)
                         ++ [EvLock settings_persist_thread_status_mutex;
                             EvUnlock settings_persist_thread_status_mutex].
Proof.
  destruct st as [w so co dpc wpc wl wr]. system_fields.
  intros -> -> Hrun. cbv zeta.
  cbn [deinit_run deinit_step is_free world status_owner cache_owner deinit_pc
       worker_pc worker_locals worker_running
       settings_persist_thread_running pthread_mutex_lock pthread_mutex_unlock emit].
  rewrite Hrun.
  cbn [Z.eqb deinit_run deinit_step is_free world status_owner cache_owner deinit_pc
       worker_pc worker_locals worker_running].
  world_fields.
  rewrite <- app_assoc. repeat split; try reflexivity. exact Hrun.
Qed.

Lemma deinit_when_not_running_returns_1_witness :
  deinit_pc (deinit_run 3 (deinit_called Demo.boot)) = D_return 1.
Proof.
  destruct (deinit_when_not_running_returns_1 (deinit_called Demo.boot)
              eq_refl eq_refl eq_refl) as (Hret & _).
  exact Hret.
Defined.

(** ** A save that fails *)

Lemma save_false_keeps_main `{Collaborators}
    (io : SaveIO) (r : Settings) (fs : FileSystem) :
  fst (fst (save_settings_with_crc io (Some r) fs)) = false ->
  snd (save_settings_with_crc io (Some r) fs) MAIN_SETTINGS_PATH = fs MAIN_SETTINGS_PATH.
Proof.
  save_cases io; intros Hfail; try discriminate; reflexivity.
Qed.

(** The files after the turn on which the count reaches the threshold. *)
Lemma cycle_flushes_files `{Collaborators} (io : SaveIO) (w0 w : World) (k : Worker) :
  settings_persist_thread_running w0 <> 0 ->
  settled_dirty w0 w k (DELAY_WRITE_CYCLES - 1) ->
  files (fst (work_thread_cycle io w k))
  = snd (save_settings_with_crc io (Some (settings_cache w0)) (files w0)).
Proof.
  intros Hrun (Hr & Hc & Hs & Hf & Hsv & ->).
  rewrite <- Hr in Hrun.
  rewrite (work_thread_cycle_running io w _ Hrun). cbv zeta.
  rewrite detect_and_flush_due.
  - world_fields.
    match goal with |- context [save_cache io ?w1] =>
      destruct (save_cache_fields io w1) as (_ & _ & _ & Sf & _)
    end.
    rewrite Sf. world_fields. rewrite Hc, Hf. reflexivity.
  - world_fields. rewrite Hc, Hs. apply memcmp_differs_same.
  - reflexivity.
  - world_fields. unfold DELAY_WRITE_CYCLES. cbn. lia.
Qed.

(** Turns with nothing pending leave the files alone. *)
Lemma run_idles_files `{Collaborators} (ios : list SaveIO)
    (running : Z) (cache : Settings) (sv : list Event) :
  running <> 0 ->
  forall w k,
  settled_clean w k running cache sv ->
  files (fst (work_thread_func ios w k)) = files w.
Proof.
  intros Hrun. induction ios as [|io ios IH]; intros w k Hinv.
  - reflexivity.
  - destruct (cycle_idles io w k running cache sv Hrun Hinv) as (w' & k' & E & Hinv').
    cbn [work_thread_func]. rewrite E. rewrite (IH w' k' Hinv').
    destruct Hinv as (Hr & Hc & Hs & Hsv & ->).
    rewrite <- Hr in Hrun.
    rewrite (work_thread_cycle_running io w _ Hrun) in E. cbv zeta in E.
    rewrite detect_and_flush_idle in E.
    + injection E as <- _. reflexivity.
    + world_fields. rewrite Hc, Hs. apply memcmp_differs_same.
    + reflexivity.
Qed.

(** X17. A save that fails is not tried again.  The worker sees a change,
    counts four quiet turns and saves on the fifth; when that save returns
    [false] the main file holds what it held before, yet the worker takes
    the snapshot and clears its flag all the same: however many quiet turns
    follow, no second save is made and the main file stays as it was.  The
    record is on disk only after a later change. *)
Theorem failed_flush_is_not_retried `{Collaborators}
    (w : World) (k : Worker) (io0 q1 q2 q3 q4 io : SaveIO) (more : list SaveIO) :
  settings_persist_thread_running w <> 0 ->
  memcmp_differs (settings_cache w) (cache_snapshot w) = true ->
  save_returns io w = false ->
  let run := work_thread_func (io0 :: q1 :: q2 :: q3 :: q4 :: io :: more) w k in
  saves (trace (fst run)) = saves (trace w) ++ [EvSave (settings_cache w) false]
  /\ files (fst run) MAIN_SETTINGS_PATH = files w MAIN_SETTINGS_PATH
  /\ snd run = worker_start
  /\ cache_snapshot (fst run) = settings_cache (fst run)
  /\ settings_cache (fst run)
     = set_crc_16_ibm (settings_cache w)
         (calculate_settings_crc (Some (settings_cache w))).
Proof.
  intros Hrun Hd Hfail run. subst run.
  assert (Hbelow : forall n, 0 <= n <= 3 -> n + 1 < DELAY_WRITE_CYCLES)
    by (unfold DELAY_WRITE_CYCLES; lia).
  destruct (cycle_detects io0 w k Hrun Hd) as (w0 & k0 & E0 & I0).
  destruct (cycle_counts q1 w w0 k0 0 Hrun I0) as (w1 & k1 & E1 & I1);
    [lia|apply Hbelow; lia|].
  destruct (cycle_counts q2 w w1 k1 1 Hrun I1) as (w2 & k2 & E2 & I2);
    [lia|apply Hbelow; lia|].
  destruct (cycle_counts q3 w w2 k2 2 Hrun I2) as (w3 & k3 & E3 & I3);
    [lia|apply Hbelow; lia|].
  destruct (cycle_counts q4 w w3 k3 3 Hrun I3) as (w4 & k4 & E4 & I4);
    [lia|apply Hbelow; lia|].
  pose proof (cycle_flushes_files io w w4 k4 Hrun I4) as Hfiles.
  destruct (cycle_flushes io w w4 k4 Hrun I4) as (w5 & k5 & E5 & I5).
  rewrite E5 in Hfiles. cbn [fst] in Hfiles.
  cbn [work_thread_func]. rewrite E0, E1, E2, E3, E4, E5.
  pose proof (run_idles_files more _ _ _ Hrun w5 k5 I5) as Hkeep.
  destruct (run_idles more _ _ _ Hrun w5 k5 I5) as (_ & Hc & Hs & Hsv & Hk).
  rewrite Hfail in Hsv.
  split; [exact Hsv|].
  split.
  - rewrite Hkeep, Hfiles. apply save_false_keeps_main. exact Hfail.
  - split; [exact Hk|]. split; [rewrite Hs, Hc; reflexivity|exact Hc].
Qed.

Lemma failed_flush_is_not_retried_witness :
  let bad := {| write_temp_settings := WriteFailed None;
                write_temp_backup := WriteOk;
                rename_backup_ok := true;
                rename_main_ok := true |} in
  let run := @work_thread_func Demo.collaborators
               [Demo.all_ok; Demo.all_ok; Demo.all_ok; Demo.all_ok; Demo.all_ok; bad;
                Demo.all_ok; Demo.all_ok; Demo.all_ok; Demo.all_ok; Demo.all_ok;
                Demo.all_ok; Demo.all_ok]
               Demo.edited worker_start in
  saves (trace (fst run)) = [EvSave Demo.defaults_record false]
  /\ files (fst run) MAIN_SETTINGS_PATH = Some (Settings_image Demo.older_record).
Proof.
  intros bad run.
  destruct (@failed_flush_is_not_retried Demo.collaborators Demo.edited worker_start
              Demo.all_ok Demo.all_ok Demo.all_ok Demo.all_ok Demo.all_ok bad
              [Demo.all_ok; Demo.all_ok; Demo.all_ok; Demo.all_ok; Demo.all_ok;
               Demo.all_ok; Demo.all_ok])
    as (Hsv & Hmain & _).
  - discriminate.
  - reflexivity.
  - reflexivity.
  - split; [exact Hsv|exact Hmain].
Defined.

(** ** A start that fails *)

(** After a call of [settings_persist_init] whose [pthread_create] fails. *)
Lemma init_thread_failed `{Collaborators} (io : SaveIO) (w : World) :
  settings_persist_thread_running w <> 1 ->
  let started := settings_persist_init io true w in
  let failed := settings_persist_init io false w in
  fst (fst failed) = -1
  /\ snd failed = None
  /\ snd (fst failed) = set_running 0 (snd (fst started)).
Proof.
  intros Hrun started failed. subst started failed.
  unfold settings_persist_init. world_fields.
  apply Z.eqb_neq in Hrun. rewrite Hrun.
  destruct (load_cache MAIN_SETTINGS_PATH _) as [[|] w1].
  - world_fields. repeat split; reflexivity.
  - destruct (load_cache BACKUP_SETTINGS_PATH _) as [[|] w2];
      world_fields; repeat split; reflexivity.
Qed.

(** X18. When the worker cannot be created, [settings_persist_init]
    returns -1 having done all the rest: the state it leaves is the state a
    successful start leaves (same cache, snapshot, files, saves and lock
    events) with the flag back at 0.  So the getter and the setter refuse
    with -2 and leave the caller's record and the cache alone, and a second
    call of [settings_persist_init] is not turned away as a repeated start:
    it returns 0 once the worker can be created. *)
Theorem failed_init_leaves_module_stopped `{Collaborators}
    (io io' : SaveIO) (w : World) (out s : Settings) :
  settings_persist_thread_running w <> 1 ->
  let failed := settings_persist_init io false w in
  let w' := snd (fst failed) in
  fst (fst failed) = -1
  /\ snd failed = None
  /\ w' = set_running 0 (snd (fst (settings_persist_init io true w)))
  /\ fst (settings_persist_get_data (Some out) w') = (-2, Some out)
  /\ fst (settings_persist_set_data (Some s) w') = -2
  /\ settings_cache (snd (settings_persist_set_data (Some s) w')) = settings_cache w'
  /\ fst (fst (settings_persist_init io' true w')) = 0
  /\ snd (settings_persist_init io' true w') = Some worker_start.
Proof.
  intros Hrun failed w'. subst w' failed.
  destruct (init_thread_failed io w Hrun) as (Hret & Hnone & Hw).
  split; [exact Hret|]. split; [exact Hnone|]. split; [exact Hw|].
  rewrite Hw.
  set (w1 := snd (fst (settings_persist_init io true w))).
  assert (Hstopped : settings_persist_thread_running (set_running 0 w1) <> 1)
    by (world_fields; discriminate).
  destruct (init_started io' (set_running 0 w1) Hstopped) as (Hret' & Hk' & _).
  unfold settings_persist_get_data, settings_persist_set_data.
  world_fields. cbn [Z.eqb]. world_fields.
  repeat split; assumption || reflexivity.
Qed.

Lemma failed_init_leaves_module_stopped_witness :
  let failed := @settings_persist_init Demo.collaborators Demo.all_ok false
                  (Demo.boot_with Demo.main_only) in
  fst (fst failed) = -1
  /\ fst (settings_persist_get_data (Some Demo.defaults_record) (snd (fst failed)))
     = (-2, Some Demo.defaults_record)
  /\ settings_cache (snd (fst failed)) = Demo.older_record.
Proof.
  intros failed.
  destruct (@failed_init_leaves_module_stopped Demo.collaborators Demo.all_ok
              Demo.all_ok (Demo.boot_with Demo.main_only)
              Demo.defaults_record Demo.defaults_record)
    as (Hret & _ & _ & Hget & _).
  - cbn. discriminate.
  - split; [exact Hret|]. split; [exact Hget|]. reflexivity.
Defined.

(** ** The getter and the setter against a shutdown *)

(** With both locks free the call returns what the routine run on its own
    returns. *)
Lemma blocking_calls_when_free (st : System) (settings : option Settings) :
  status_owner st = None -> cache_owner st = None ->
  settings_persist_get_data_blocking settings st
  = Some (fst (settings_persist_get_data settings (world st)),
          set_world (snd (settings_persist_get_data settings (world st))) st)
  /\ settings_persist_set_data_blocking settings st
     = Some (fst (settings_persist_set_data settings (world st)),
             set_world (snd (settings_persist_set_data settings (world st))) st).
Proof.
  intros Hs Hc.
  unfold settings_persist_get_data_blocking, settings_persist_set_data_blocking,
    settings_persist_get_data, settings_persist_set_data.
  rewrite Hs, Hc. cbn [is_free].
  destruct settings as [r|].
  - world_fields.
    destruct (settings_persist_thread_running (world st) =? 0); split; reflexivity.
  - destruct st. split; reflexivity.
Qed.

Lemma worker_step_keeps_caller `{Collaborators} (io : SaveIO) (st st' : System) :
  worker_step io st = Some st' -> deinit_pc st' = deinit_pc st.
Proof.
  unfold worker_step. intros Hstep.
  destruct (worker_pc st);
    repeat match type of Hstep with
           | context [if ?c then _ else _] => destruct c
           end;
    try discriminate; injection Hstep as <-; reflexivity.
Qed.

(** C8, as the code has it.  For a null argument both routines return -1
    in every state and touch nothing, not even a lock.  For a non-null
    argument they first take the flag lock.  When no thread holds it they
    return -2 if the flag is 0 (before the first initialisation, and after a
    [settings_persist_deinit] that found the module stopped), with the
    cache as it was, and, the cache lock being free too, 0 otherwise, with
    the whole cache copied out, respectively the whole record copied in.
    When another thread holds the flag lock the call does not return.  That
    is the state after [settings_persist_deinit] on a running module: from
    the statement after its lock on, in every interleaving with the worker,
    the caller of [settings_persist_deinit] holds the flag lock and never
    reaches a [return], and every further step leaves it so; a getter or a
    setter called then waits at its first statement for ever and never
    returns -2. *)
Theorem get_set_data_results_under_locks `{Collaborators}
    (st : System) (out s : Settings) :
  settings_persist_get_data_blocking None st = Some (-1, None, st)
  /\ settings_persist_set_data_blocking None st = Some (-1, st)
  /\ (status_owner st = None ->
      settings_persist_thread_running (world st) = 0 ->
      exists st1 st2,
        settings_persist_get_data_blocking (Some out) st = Some (-2, Some out, st1)
        /\ settings_persist_set_data_blocking (Some s) st = Some (-2, st2)
        /\ settings_cache (world st1) = settings_cache (world st)
        /\ settings_cache (world st2) = settings_cache (world st))
  /\ (status_owner st = None -> cache_owner st = None ->
      settings_persist_thread_running (world st) <> 0 ->
      exists st1 st2,
        settings_persist_get_data_blocking (Some out) st
        = Some (0, Some (settings_cache (world st)), st1)
        /\ settings_persist_set_data_blocking (Some s) st = Some (0, st2)
        /\ settings_cache (world st1) = settings_cache (world st)
        /\ settings_cache (world st2) = s)
  /\ (status_owner st <> None ->
      settings_persist_get_data_blocking (Some out) st = None
      /\ settings_persist_set_data_blocking (Some s) st = None)
  /\ (forall w,
      settings_persist_thread_running w <> 0 ->
      reaches (deinit_called w) st ->
      deinit_pc st <> D_lock ->
      status_owner st = Some Caller
      /\ (forall v, deinit_pc st <> D_return v)
      /\ settings_persist_get_data_blocking (Some out) st = None
      /\ settings_persist_set_data_blocking (Some s) st = None
      /\ forall st', step st st' -> deinit_pc st' <> D_lock).
Proof.
  assert (Hheld : status_owner st <> None ->
            settings_persist_get_data_blocking (Some out) st = None
            /\ settings_persist_set_data_blocking (Some s) st = None).
  { intros Ho. unfold settings_persist_get_data_blocking,
      settings_persist_set_data_blocking.
    destruct (status_owner st); [split; reflexivity|contradiction Ho; reflexivity]. }
  split; [reflexivity|]. split; [reflexivity|].
  split; [|split; [|split; [exact Hheld|]]].
  - intros Ho Hrun.
    unfold settings_persist_get_data_blocking, settings_persist_set_data_blocking.
    rewrite Ho. cbn [is_free]. world_fields. rewrite Hrun. cbn [Z.eqb].
    eexists. eexists. split; [reflexivity|]. split; [reflexivity|].
    split; reflexivity.
  - intros Ho Hc Hrun.
    unfold settings_persist_get_data_blocking, settings_persist_set_data_blocking.
    rewrite Ho, Hc. cbn [is_free]. world_fields.
    apply Z.eqb_neq in Hrun. rewrite Hrun.
    eexists. eexists. split; [reflexivity|]. split; [reflexivity|].
    split; reflexivity.
  - intros w Hrun Hreach Hpast.
    pose proof (reaches_inv _ _ (deinit_called_inv w Hrun) Hreach) as Hinv.
    pose proof Hinv as (Hw & Hd & Hk).
    assert (Ho : status_owner st = Some Caller).
    { destruct (deinit_pc st); try contradiction; tauto. }
    assert (Hsome : status_owner st <> None) by (rewrite Ho; discriminate).
    destruct (Hheld Hsome) as (Hget & Hset).
    split; [exact Ho|]. split.
    { intros v Hv. rewrite Hv in Hd. exact Hd. }
    split; [exact Hget|]. split; [exact Hset|].
    intros st' [Hstep|[io Hstep]].
    + unfold deinit_step in Hstep.
      destruct (deinit_pc st); try contradiction;
        try (contradiction Hpast; reflexivity).
      * injection Hstep as <-. system_fields.
        destruct (settings_persist_thread_running (world st) =? 0); discriminate.
      * injection Hstep as <-. system_fields. discriminate.
      * destruct (worker_pc st); try discriminate.
        injection Hstep as <-. system_fields. discriminate.
    + rewrite (worker_step_keeps_caller io st st' Hstep). exact Hpast.
Qed.

Lemma get_set_data_results_under_locks_witness :
  let joining := deinit_run 3 (deinit_called Demo.quiet) in
  deinit_pc joining = D_join
  /\ settings_persist_thread_running (world joining) = 0
  /\ settings_persist_get_data_blocking (Some Demo.older_record) joining = None
  /\ settings_persist_set_data_blocking (Some Demo.older_record) joining = None
  /\ (exists st1,
        settings_persist_get_data_blocking (Some Demo.older_record)
          (deinit_called Demo.boot)
        = Some (-2, Some Demo.older_record, st1))
  /\ (exists st1,
        settings_persist_get_data_blocking (Some Demo.older_record)
          (deinit_called Demo.quiet)
        = Some (0, Some Demo.defaults_record, st1)).
Proof.
  intros joining.
  assert (Hreach : @reaches Demo.collaborators (deinit_called Demo.quiet) joining).
  { eapply reaches_step; [eapply reaches_step; [eapply reaches_step;
      [apply reaches_here|]|]|]; left; reflexivity. }
  destruct (@get_set_data_results_under_locks Demo.collaborators joining
              Demo.older_record Demo.older_record)
    as (_ & _ & _ & _ & _ & Hafter).
  destruct (Hafter Demo.quiet) as (_ & _ & Hget & Hset & _);
    [cbn; discriminate|exact Hreach|cbn; discriminate|].
  destruct (@get_set_data_results_under_locks Demo.collaborators
              (deinit_called Demo.boot) Demo.older_record Demo.older_record)
    as (_ & _ & Hstopped & _).
  destruct (Hstopped eq_refl eq_refl) as (b1 & _ & Hb & _).
  destruct (@get_set_data_results_under_locks Demo.collaborators
              (deinit_called Demo.quiet) Demo.older_record Demo.older_record)
    as (_ & _ & _ & Hrunning & _).
  destruct (Hrunning eq_refl eq_refl) as (q1 & _ & Hq & _); [cbn; discriminate|].
  split; [reflexivity|]. split; [reflexivity|].
  split; [exact Hget|]. split; [exact Hset|].
  split; [exists b1; exact Hb|exists q1; exact Hq].
Defined.
